(** * bt: rendering and viewport engine of the terminal file-tree browser

    Shallow embedding of package [ui] (the renderer with heading, width
    budget and minimum window size) and of the root-package [ui.go] (the
    renderer without them), followed by the properties of the
    viewport crop, the tree flattening, the line truncation, the size
    formatter and the render entry point. *)

From Stdlib Require Import ZArith List String Ascii Bool Lia.
From Stdlib Require Import Floats DecimalString.
From Stdlib Require Uint63.
Import ListNotations.
Local Open Scope list_scope.
Local Open Scope string_scope.
Local Open Scope Z_scope.

(** ** Go's [int] on 64-bit targets *)

Module GoInt.

Definition min_int : Z := - 2 ^ 63.
Definition max_int : Z := 2 ^ 63 - 1.

(** Two's-complement wrap-around of a mathematical integer. *)
Definition wrap (z : Z) : Z := (z + 2 ^ 63) mod 2 ^ 64 - 2 ^ 63.

Definition in_int (z : Z) : Prop := min_int <= z <= max_int.

Definition add (a b : Z) : Z := wrap (a + b).
Definition sub (a b : Z) : Z := wrap (a - b).

End GoInt.

Notation "a +i b" := (GoInt.add a b) (at level 50, left associativity).
Notation "a -i b" := (GoInt.sub a b) (at level 50, left associativity).

(** ** Results of Go code that may panic *)

(** [Ok a]: normal return.  [Panic]: a run-time panic (slice bounds or
    index out of range).  [OutOfFuel]: the bound given to a loop model was
    too small; the theorems show that it never happens with the bound the
    model uses. *)
Inductive result (A : Type) : Type :=
| Ok (a : A)
| Panic
| OutOfFuel.
Arguments Ok {A} a.
Arguments Panic {A}.
Arguments OutOfFuel {A}.

Definition rbind {A B} (r : result A) (k : A -> result B) : result B :=
  match r with
  | Ok a => k a
  | Panic => Panic
  | OutOfFuel => OutOfFuel
  end.

(** ** The renderer and its persisted viewport offset *)

Record Renderer : Type := mkRenderer {
  EdgePadding : Z;
  offsetMem : Z
}.

(** Methods with a pointer receiver: the renderer is threaded through, and
    a panic leaves the renderer as it was when the panic was raised. *)
Definition M (A : Type) : Type := Renderer -> result A * Renderer.

Definition ret {A} (a : A) : M A := fun r => (Ok a, r).

Definition bind {A B} (m : M A) (k : A -> M B) : M B :=
  fun r =>
    match m r with
    | (Ok a, r') => k a r'
    | (Panic, r') => (Panic, r')
    | (OutOfFuel, r') => (OutOfFuel, r')
    end.

Definition lift {A} (x : result A) : M A := fun r => (x, r).

Definition getR : M Renderer := fun r => (Ok r, r).

Definition setOffsetMem (o : Z) : M unit :=
  fun r => (Ok tt, mkRenderer (EdgePadding r) o).

Notation "x <- m ;; k" := (bind m (fun x => k))
  (at level 61, m at next level, right associativity).
Notation "m ;;; k" := (bind m (fun _ => k))
  (at level 61, right associativity).

(** ** Slices *)

Definition len {A} (l : list A) : Z := Z.of_nat (List.length l).

(** [l[lo:hi]] on a slice whose capacity is its length: Go panics unless
    [0 <= lo <= hi <= cap]. *)
Definition slice {A} (l : list A) (lo hi : Z) : result (list A) :=
  if (0 <=? lo) && (lo <=? hi) && (hi <=? len l)
  then Ok (firstn (Z.to_nat (hi - lo)) (skipn (Z.to_nat lo) l))
  else Panic.

(** ** cropTree (identical in both packages) *)

(** [func (r *Renderer) cropTree(lines []string, currentLine int,
    windowHeight int) []string] *)
Definition cropTree {A} (lines : list A) (currentLine windowHeight : Z)
  : M (list A) :=
  r <- getR ;;
  let linesLen := len lines in
  let offset := offsetMem r in
  let limit := linesLen in
  if 0 <? windowHeight then
    let offset :=
      if windowHeight +i offset -i EdgePadding r <? currentLine +i 1
      then Z.min (currentLine +i 1 -i windowHeight +i EdgePadding r)
                 (linesLen -i windowHeight)
      else offset in
    let offset :=
      if currentLine <? EdgePadding r +i offset
      then Z.max (currentLine -i EdgePadding r) 0
      else offset in
    setOffsetMem offset ;;;
    let limit := Z.min (windowHeight +i offset) linesLen in
    lift (slice lines offset limit)
  else
    lift (slice lines offset limit).

(** ** Go strings

    A Go string is a sequence of bytes; [string] (a sequence of 8-bit
    [ascii]) is used for it.  Lengths of strings and slices held in memory
    and the counters that count their elements stay far below [2^63] and
    are integers without wrap-around; arithmetic on the integers a caller
    passes in (window sizes, the width budget, the edge padding, the
    persisted offset) wraps. *)

Definition nl : string := String (ascii_of_nat 10) EmptyString.

Definition bytesOf (s : string) : list N := map N_of_ascii (list_ascii_of_string s).
Definition stringOfBytes (l : list N) : string :=
  string_of_list_ascii (map ascii_of_N l).

Module utf8.

Definition RuneError : N := 0xFFFD.

Definition isCont (b : N) : bool := ((0x80 <=? b) && (b <=? 0xBF))%N.

(** Length of the sequence a leading byte announces, 0 for a byte that
    cannot lead. *)
Definition seqSize (b0 : N) : nat :=
  if ((0xC2 <=? b0) && (b0 <=? 0xDF))%N then 2%nat
  else if ((0xE0 <=? b0) && (b0 <=? 0xEF))%N then 3%nat
  else if ((0xF0 <=? b0) && (b0 <=? 0xF4))%N then 4%nat
  else 0%nat.

(** Accepted range of the second byte, by leading byte. *)
Definition accept (b0 b1 : N) : bool :=
  (if b0 =? 0xE0 then (0xA0 <=? b1) && (b1 <=? 0xBF)
   else if b0 =? 0xED then (0x80 <=? b1) && (b1 <=? 0x9F)
   else if b0 =? 0xF0 then (0x90 <=? b1) && (b1 <=? 0xBF)
   else if b0 =? 0xF4 then (0x80 <=? b1) && (b1 <=? 0x8F)
   else isCont b1)%N.

Definition low6 (b : N) : N := N.land b 0x3F.

(** Decoding as [range] over a string, [[]rune(s)] and
    [RuneCountInString] do it: each rune with its width in bytes; a byte
    that starts no valid sequence yields [RuneError] of width 1. *)
Fixpoint decode (s : list N) : list (N * nat) :=
  match s with
  | [] => []
  | b0 :: r0 =>
    if (b0 <? 0x80)%N then (b0, 1%nat) :: decode r0 else
    match seqSize b0, r0 with
    | 2%nat, b1 :: r1 =>
      if accept b0 b1
      then (N.lor (N.shiftl (N.land b0 0x1F) 6) (low6 b1), 2%nat) :: decode r1
      else (RuneError, 1%nat) :: decode r0
    | 3%nat, b1 :: b2 :: r2 =>
      if accept b0 b1 && isCont b2
      then (N.lor (N.shiftl (N.land b0 0x0F) 12)
              (N.lor (N.shiftl (low6 b1) 6) (low6 b2)), 3%nat) :: decode r2
      else (RuneError, 1%nat) :: decode r0
    | 4%nat, b1 :: b2 :: b3 :: r3 =>
      if accept b0 b1 && isCont b2 && isCont b3
      then (N.lor (N.shiftl (N.land b0 0x07) 18)
              (N.lor (N.shiftl (low6 b1) 12)
                 (N.lor (N.shiftl (low6 b2) 6) (low6 b3))), 4%nat) :: decode r3
      else (RuneError, 1%nat) :: decode r0
    | _, _ => (RuneError, 1%nat) :: decode r0
    end
  end.

(** [[]rune(s)] *)
Definition runes (s : string) : list N := map fst (decode (bytesOf s)).

Definition RuneCountInString (s : string) : Z := len (runes s).

(** [utf8.Valid]: no byte was decoded as an error of width 1. *)
Definition Valid (s : string) : bool :=
  forallb (fun rw => negb ((fst rw =? RuneError)%N && Nat.eqb (snd rw) 1))
          (decode (bytesOf s)).

Definition encodeRune (r : N) : list N :=
  (if r <? 0x80 then [r]
   else if r <? 0x800 then [N.lor 0xC0 (N.shiftr r 6); N.lor 0x80 (low6 r)]
   else if ((0xD800 <=? r) && (r <=? 0xDFFF)) || (0x10FFFF <? r)
     then [0xEF; 0xBF; 0xBD]
   else if r <? 0x10000
     then [N.lor 0xE0 (N.shiftr r 12); N.lor 0x80 (low6 (N.shiftr r 6));
           N.lor 0x80 (low6 r)]
   else [N.lor 0xF0 (N.shiftr r 18); N.lor 0x80 (low6 (N.shiftr r 12));
         N.lor 0x80 (low6 (N.shiftr r 6)); N.lor 0x80 (low6 r)])%N.

(** [string(rs)] for a slice of runes *)
Definition stringOfRunes (rs : list N) : string :=
  stringOfBytes (flat_map encodeRune rs).

End utf8.

Module strings.

(** [strings.Repeat(s, count)] for a count that is not negative *)
Fixpoint Repeat (s : string) (count : nat) : string :=
  match count with
  | O => EmptyString
  | S c => s ++ Repeat s c
  end.

Fixpoint Join (elems : list string) (sep : string) : string :=
  match elems with
  | [] => EmptyString
  | [e] => e
  | e :: rest => e ++ sep ++ Join rest sep
  end.

(** [strings.Split(s, "\n")]: the fields between line feeds, at least
    one. *)
Fixpoint SplitLines (s : string) : list string :=
  match s with
  | EmptyString => [EmptyString]
  | String c rest =>
    if Ascii.eqb c (ascii_of_nat 10) then EmptyString :: SplitLines rest
    else match SplitLines rest with
         | [] => [String c EmptyString]
         | f :: fs => String c f :: fs
         end
  end.

End strings.

(** ** float64 and its formatting by [fmt] *)

Module float64.

(** [float64(z)] for an integer: rounded to the nearest float, ties to
    even. *)
Definition ofInt (z : Z) : float :=
  SF2Prim (binary_normalize prec emax z 0 false).

(** [math.Floor] of a finite float as an integer; [None] for NaN and the
    infinities. *)
Definition floor (f : float) : option Z :=
  match Prim2SF f with
  | S754_zero _ => Some 0
  | S754_finite s m e =>
    let v := if s then Z.neg m else Z.pos m in
    Some (if 0 <=? e then v * 2 ^ e else v / 2 ^ (- e))
  | _ => None
  end.

Definition decimal (n : Z) : string :=
  DecimalString.NilZero.string_of_uint (N.to_uint (Z.to_N n)).

Fixpoint padZeros (width : nat) (s : string) : string :=
  match width with
  | O => s
  | S w =>
    if Nat.ltb (String.length s) width then padZeros w ("0" ++ s) else s
  end.

(** The magnitude [m * 2^e] times [10^p], rounded to the nearest
    integer, ties to even: the digits [strconv] produces for the ['f']
    format with precision [p]. *)
Definition scaledDigits (m : positive) (e : Z) (p : nat) : Z :=
  let num := if 0 <=? e then Z.pos m * 2 ^ e * 10 ^ Z.of_nat p
             else Z.pos m * 10 ^ Z.of_nat p in
  let den := if 0 <=? e then 1 else 2 ^ (- e) in
  let q := num / den in
  let r := num mod den in
  if (den <? 2 * r) || ((2 * r =? den) && Z.odd q) then q + 1 else q.

Definition fixedDigits (q : Z) (p : nat) : string :=
  match p with
  | O => decimal q
  | _ => decimal (q / 10 ^ Z.of_nat p) ++ "." ++
         padZeros p (decimal (q mod 10 ^ Z.of_nat p))
  end.

(** [fmt.Sprintf("%.<p>f", f)] *)
Definition formatFixed (p : nat) (f : float) : string :=
  match Prim2SF f with
  | S754_nan => "NaN"
  | S754_infinity s => if s then "-Inf" else "+Inf"
  | S754_zero s => (if s then "-" else "") ++ fixedDigits 0 p
  | S754_finite s m e =>
    (if s then "-" else "") ++ fixedDigits (scaledDigits m e p) p
  end.

End float64.

(** ** The tree, as the renderer reads it (package [tree]) *)

Module tree.

(** What the renderer asks of [fs.FileInfo]. *)
Record FileInfo : Type := mkFileInfo {
  Name : string;
  Size : Z;          (* int64 *)
  ModTime : Z;       (* an instant, formatted by the time package *)
  IsDir : bool
}.

(** A [*Node] is [None] for nil and [Some n] for a pointer; [addr] is
    the address the pointer holds, which is what [==] compares.
    [Children] is [None] for a nil slice (not expanded) and [Some []]
    for an expanded, empty directory. *)
#[warnings="-register-all"]
Inductive Node : Type := mkNode {
  addr : N;
  Path : string;
  Info : FileInfo;
  Children : option (list (option Node))
}.

(** [p == node] for a [node] that is not nil. *)
Definition ptrEq (p : option Node) (node : Node) : bool :=
  match p with
  | Some m => N.eqb (addr m) (addr node)
  | None => false
  end.

(** Modelled from the spec: the declaration of [Tree] and its accessor
    [GetSelectedChild] are not among the sources.  The tree holds the
    root, a reference to the directory being browsed, an optional marked
    node, and exposes the currently selected child of the current
    directory; the renderer never mutates the tree, so the accessor's
    value is a field here. *)
Record Tree : Type := mkTree {
  Root : option Node;
  CurrentDir : option Node;
  Marked : option Node;
  SelectedChild : option Node
}.

Definition GetSelectedChild (t : Tree) : option Node := SelectedChild t.

End tree.

(** ** The application state read by the heading (package [state]) *)

Module state.

(** [OpBufRepr] and [OpBufIsInput] are the values of [s.OpBuf.Repr()]
    and [s.OpBuf.IsInput()], [InputBuf] that of [string(s.InputBuf)]. *)
Record State : Type := mkState {
  Tree : tree.Tree;
  OpBufRepr : string;
  OpBufIsInput : bool;
  InputBuf : string
}.

End state.

(** ** Styling, layout and input capabilities used as opaque functions *)

Record Ext : Type := mkExt {
  (* fatih/color *)
  BlueString : string -> string;
  YellowString : string -> string;
  GreenString : string -> string;
  MagentaString : string -> string;
  (* lipgloss.NewStyle().Background(lipgloss.Color("#3C3C3C")).Render *)
  BackgroundRender : string -> string;
  (* lipgloss.NewStyle().MaxWidth(w).Render *)
  MaxWidthRender : Z -> string -> string;
  (* lipgloss.Width *)
  Width : string -> Z;
  (* the preview style with MarginLeft(m) and MaxWidth(w), then Render *)
  ContentRender : Z -> Z -> string -> string;
  (* lipgloss.JoinHorizontal(0, a, b) *)
  JoinHorizontal : string -> string -> string;
  (* t.Format(time.RFC822) *)
  FormatRFC822 : Z -> string;
  (* tree.ReadSelectedChildContent(content, limit): the bytes read
     (content[:n]), or None when it returns an error *)
  ReadSelectedChildContent : tree.Tree -> Z -> option string
}.

(** ** The explicit stack (ui.go, lines 131-151) *)

Module stack.

Definition stack (T : Type) : Type := list T.   (* items *)

Definition Push {T} (s : stack T) (el : T) : stack T := (s ++ [el])%list.

Definition Len {T} (s : stack T) : Z := len s.

(** [el := s.items[len(s.items)-1]; s.items = s.items[:len(s.items)-1]] *)
Definition Pop {T} (s : stack T) : result (T * stack T) :=
  match nth_error s (List.length s - 1) with
  | Some el => Ok (el, firstn (List.length s - 1) s)
  | None => Panic   (* index out of range on an empty stack *)
  end.

Definition newStack {T} (el : T) : stack T := Push [] el.

End stack.

(** ** The traversal loop of renderTree

    The loop is the same in both packages (ui.go, lines 95-127;
    package ui, lines 163-213) up to the names of its counters; the
    packages differ in how a node's line is built before the selection
    marker is appended, which is the parameter [nodeLine]. *)

(** Number of pointers the traversal pops for the subtree behind a
    pointer: the bound given to the loop. *)
Fixpoint weight (n : tree.Node) : nat :=
  match n with
  | tree.mkNode _ _ _ ch =>
    S (match ch with
       | None => 0%nat
       | Some l =>
         (fix go (l : list (option tree.Node)) : nat :=
            match l with
            | [] => 0%nat
            | c :: r =>
              (match c with Some m => weight m | None => 1 end + go r)%nat
            end) l
       end)
  end.

Definition weightPtr (p : option tree.Node) : nat :=
  match p with Some n => weight n | None => 1%nat end.

Section RenderLoop.

Import tree.

Variable ext : Ext.
Variable tr : Tree.
Variable nodeLine : Node -> nat -> result string.

Definition stackEl : Type := (option Node * nat)%type.

(** [strings.Repeat("  ", depth+1)+"..."+color.YellowString(" <-")] *)
Definition placeholderLine (depth : nat) : string :=
  strings.Repeat "  " (depth + 1) ++ "..." ++ YellowString ext " <-".

(** [for i := len(ch) - 1; i >= 0; i-- { s.Push(stackEl{ch[i], depth + 1}) }] *)
Definition pushChildren (ch : list (option Node)) (depth : nat)
           (s : stack.stack stackEl) : stack.stack stackEl :=
  fold_left (fun s c => stack.Push s (c, (depth + 1)%nat)) (rev ch) s.

Fixpoint renderLoop (fuel : nat) (s : stack.stack stackEl)
         (linen currentLine : Z) (lines : list string)
  : result (list string * Z) :=
  if 0 <? stack.Len s then
    match fuel with
    | O => OutOfFuel
    | S fuel' =>
      rbind (stack.Pop s) (fun popped =>
      let '(el, s) := popped in
      let linen := linen + 1 in
      let depth := snd el in
      match fst el with
      | None => renderLoop fuel' s linen currentLine lines
      | Some node =>
        rbind (nodeLine node depth) (fun repr =>
        let selected := ptrEq (GetSelectedChild tr) node in
        let repr := if selected then repr ++ YellowString ext " <-" else repr in
        let currentLine := if selected then linen else currentLine in
        let lines := (lines ++ [repr])%list in
        match Children node with
        | Some ch =>
          let empty := (len ch =? 0) && ptrEq (CurrentDir tr) node in
          let lines := if empty then (lines ++ [placeholderLine depth])%list else lines in
          let currentLine := if empty then linen + 1 else currentLine in
          renderLoop fuel' (pushChildren ch depth s) linen currentLine lines
        | None => renderLoop fuel' s linen currentLine lines
        end)
      end)
    end
  else Ok (lines, currentLine).

Definition renderTreeLoop : result (list string * Z) :=
  let linen := -1 in
  let currentLine := 0 in
  let lines := [] in
  let s := stack.newStack (Root tr, 0%nat) in
  renderLoop (weightPtr (Root tr)) s linen currentLine lines.

End RenderLoop.

(** [int(math.Floor(0.5 * float64(winWidth)))] *)
Definition halfWidth (winWidth : Z) : Z :=
  match float64.floor (0.5 * float64.ofInt winWidth)%float with
  | Some z => z
  | None => 0   (* not reached: the product is finite *)
  end.

Definition previewBytesLimit : Z := 10000.

(** Lines 114-120 (package ui) and 47-53 (ui.go): the preview lines. *)
Definition previewLines (content : string) (winHeight : Z) : result (list string) :=
  if negb (utf8.Valid content) then Ok ["<binary content>"]
  else
    let contentLines := strings.SplitLines content in
    slice contentLines 0 (Z.max (Z.min winHeight (len contentLines)) 0).

(** ** Package main (ui.go): the renderer without heading and width budget *)

Module main.

Import tree.

Section WithExt.

Variable ext : Ext.

(** ui.go, lines 105-109 *)
Definition nodeLine (node : Node) (depth : nat) : result string :=
  let name := Name (Info node) in
  let name := if IsDir (Info node)
              then BlueString ext (Name (Info node)) else name in
  Ok (strings.Repeat "  " depth ++ name).

(** [func (r *Renderer) renderTree(tree *Tree) ([]string, int)] *)
Definition renderTree (t : Tree) : result (list string * Z) :=
  renderTreeLoop ext t nodeLine.

(** [func (r *Renderer) Render(tree *Tree, winHeight, winWidth int) string] *)
Definition Render (t : Tree) (winHeight winWidth : Z) : M string :=
  rendered <- lift (renderTree t) ;;
  let '(renderedTree, selectedRow) := rendered in
  croppedTree <- cropTree renderedTree selectedRow winHeight ;;
  let sectionWidth := halfWidth winWidth in
  let renderedStyledTree :=
    MaxWidthRender ext sectionWidth (strings.Join croppedTree nl) in
  match ReadSelectedChildContent ext t previewBytesLimit with
  | None => ret renderedStyledTree
  | Some content =>
    let leftMargin := sectionWidth -i Width ext renderedStyledTree in
    contentLines <- lift (previewLines content winHeight) ;;
    ret (JoinHorizontal ext renderedStyledTree
           (ContentRender ext leftMargin (sectionWidth +i leftMargin -i 1)
              (strings.Join contentLines nl)))
  end.

End WithExt.

End main.

(** ** Package ui: heading, width budget, minimum size *)

Module ui.

Import tree.

Definition minHeight : Z := 10.
Definition minWidth : Z := 10.

Definition sizes : list string := ["b"; "Kb"; "Mb"; "Gb"; "Tb"; "Pb"; "Eb"].

(** [for s >= base && i < unitsLimit { s = s / base; i++ }] *)
Fixpoint sizeLoop (fuel : nat) (s base : float) (i unitsLimit : Z)
  : result (float * Z) :=
  if (base <=? s)%float && (i <? unitsLimit) then
    match fuel with
    | O => OutOfFuel
    | S fuel' => sizeLoop fuel' (s / base)%float base (i + 1) unitsLimit
    end
  else Ok (s, i).

(** [func formatSize(s float64, base float64) string] *)
Definition formatSize (s base : float) : result string :=
  let unitsLimit := len sizes in
  rbind (sizeLoop (Z.to_nat unitsLimit) s base 0 unitsLimit) (fun si =>
  let '(s, i) := si in
  let f := if 1 <? i then 2%nat else 0%nat in
  match nth_error sizes (Z.to_nat i) with
  | Some unit => Ok (float64.formatFixed f s ++ " " ++ unit)
  | None => Panic   (* sizes[i]: index out of range *)
  end).

Section WithExt.

Variable ext : Ext.

(** Package ui, lines 174-194: the node's line before the selection
    marker. *)
Definition nodeLine (t : Tree) (widthLim : Z) (node : Node) (depth : nat)
  : result string :=
  let name := Name (Info node) in
  let nameRuneCountNoStyle := utf8.RuneCountInString name in
  let indent := strings.Repeat "  " depth in
  let indentRuneCount := utf8.RuneCountInString indent in
  rbind (if widthLim -i 6 <? nameRuneCountNoStyle + indentRuneCount
         then rbind (slice (utf8.runes name) 0
                       (Z.max 0 (widthLim -i indentRuneCount -i 6)))
                    (fun rs => Ok (utf8.stringOfRunes rs ++ "..."))
         else Ok name) (fun name =>
  let name := if IsDir (Info node)
              then BlueString ext (Name (Info node)) else name in
  let name := if ptrEq (Marked t) node
              then BackgroundRender ext name else name in
  Ok (indent ++ name)).

(** [func (r *Renderer) renderTree(tree *t.Tree, widthLim int) ([]string, int)] *)
Definition renderTree (t : Tree) (widthLim : Z) : result (list string * Z) :=
  renderTreeLoop ext t (nodeLine t widthLim).

(** [func (r *Renderer) renderHeading(s *state.State) (string, int)] *)
Definition renderHeading (s : state.State) : result (string * Z) :=
  let t := state.Tree s in
  let selected := GetSelectedChild t in
  match CurrentDir t with
  | None => Panic   (* nil pointer dereference *)
  | Some cd =>
    let path := Path cd ++ "/..." in
    let changeTime := "--" in
    let size := "0 B" in
    rbind (match selected with
           | Some sel =>
             rbind (formatSize (float64.ofInt (Size (Info sel))) 1024)
                   (fun size =>
             Ok (Path sel, FormatRFC822 ext (ModTime (Info sel)), size))
           | None => Ok (path, changeTime, size)
           end) (fun pcs =>
    let '(path, changeTime, size) := pcs in
    let markedPath :=
      match Marked t with Some m => Path m | None => "" end in
    let operationBar := ": " ++ state.OpBufRepr s in
    let operationBar :=
      if negb (String.eqb markedPath "")
      then operationBar ++ " [" ++ markedPath ++ "]" else operationBar in
    let operationBar :=
      if state.OpBufIsInput s
      then operationBar ++ " | " ++ BackgroundRender ext (state.InputBuf s) ++ " |"
      else operationBar in
    let header := [ GreenString ext ("> " ++ path);
                    MagentaString ext (changeTime ++ " : " ++ size);
                    operationBar ] in
    Ok (strings.Join header nl, len header))
  end.

(** [func (r *Renderer) renderTreeWithContent(tree *t.Tree, winHeight,
    winWidth int) string] *)
Definition renderTreeWithContent (t : Tree) (winHeight winWidth : Z)
  : M string :=
  if (winWidth <? minWidth) || (winHeight <? minHeight)
  then ret ("too small =(" ++ nl)
  else
    let sectionWidth := halfWidth winWidth in
    rendered <- lift (renderTree t sectionWidth) ;;
    let '(renderedTree, selectedRow) := rendered in
    croppedTree <- cropTree renderedTree selectedRow winHeight ;;
    let renderedStyledTree :=
      MaxWidthRender ext sectionWidth (strings.Join croppedTree nl) in
    match ReadSelectedChildContent ext t previewBytesLimit with
    | None => ret renderedStyledTree
    | Some content =>
      let leftMargin := sectionWidth -i Width ext renderedStyledTree in
      contentLines <- lift (previewLines content winHeight) ;;
      ret (JoinHorizontal ext renderedStyledTree
             (ContentRender ext leftMargin (sectionWidth +i leftMargin -i 1)
                (strings.Join contentLines nl)))
    end.

(** [func (r *Renderer) Render(s *state.State, winHeight, winWidth int) string] *)
Definition Render (s : state.State) (winHeight winWidth : Z) : M string :=
  heading <- lift (renderHeading s) ;;
  let '(renderedHeading, headLen) := heading in
  renderedTree <-
    renderTreeWithContent (state.Tree s) (winHeight -i headLen) winWidth ;;
  ret (renderedHeading ++ nl ++ renderedTree).

End WithExt.

End ui.

(** ** A concrete instance of the capabilities, for running the code

    Colours as fatih/color writes them (SGR escape sequences); the layout
    functions are simple stand-ins, and no preview is available. *)

Definition esc : string := String (ascii_of_nat 27) EmptyString.

Definition sgr (code s : string) : string :=
  esc ++ "[" ++ code ++ "m" ++ s ++ esc ++ "[0m".

Definition sampleExt : Ext := {|
  BlueString := sgr "34";
  YellowString := sgr "33";
  GreenString := sgr "32";
  MagentaString := sgr "35";
  BackgroundRender := sgr "48;2;60;60;60";
  MaxWidthRender := fun _ s => s;
  Width := fun s => utf8.RuneCountInString s;
  ContentRender := fun _ _ s => s;
  JoinHorizontal := fun a b => a ++ b;
  FormatRFC822 := fun _ => "01 Jan 70 00:00 UTC";
  ReadSelectedChildContent := fun _ _ => None
|}.

Definition file (a : N) (path name : string) (size : Z) : tree.Node :=
  tree.mkNode a path (tree.mkFileInfo name size 0 false) None.

Definition dir (a : N) (path name : string) (ch : option (list (option tree.Node)))
  : tree.Node :=
  tree.mkNode a path (tree.mkFileInfo name 4096 0 true) ch.

(** ** The flattening order, stated on the tree

    Pre-order of the stored child order: a node, then the whole subtree of
    each child, siblings left to right.  A node whose children value is nil
    is listed and not descended into; a nil child pointer contributes
    nothing. *)

Fixpoint preorder (depth : nat) (n : tree.Node) : list (tree.Node * nat) :=
  match n with
  | tree.mkNode _ _ _ ch =>
    (n, depth) ::
    match ch with
    | None => []
    | Some l =>
      (fix children (l : list (option tree.Node)) : list (tree.Node * nat) :=
         match l with
         | [] => []
         | c :: r =>
           (match c with
            | Some m => preorder (depth + 1) m
            | None => []
            end ++ children r)%list
         end) l
    end
  end.

Definition preorderPtr (depth : nat) (p : option tree.Node)
  : list (tree.Node * nat) :=
  match p with Some n => preorder depth n | None => [] end.

(** The pointers in the order the loop pops them, nil pointers included:
    the pop count [linen] advances on each of them. *)
Fixpoint pops (depth : nat) (n : tree.Node) : list (option tree.Node * nat) :=
  match n with
  | tree.mkNode _ _ _ ch =>
    (Some n, depth) ::
    match ch with
    | None => []
    | Some l =>
      (fix children (l : list (option tree.Node)) : list (option tree.Node * nat) :=
         match l with
         | [] => []
         | c :: r =>
           (match c with
            | Some m => pops (depth + 1) m
            | None => [(None, (depth + 1)%nat)]
            end ++ children r)%list
         end) l
    end
  end.

Definition popsPtr (depth : nat) (p : option tree.Node)
  : list (option tree.Node * nat) :=
  match p with Some n => pops depth n | None => [(None, depth)] end.

Section Flattening.

Import tree.

Variable ext : Ext.
Variable tr : Tree.
Variable nodeLine : Node -> nat -> result string.

(** The node is the current directory and has zero children. *)
Definition emptyCurrent (node : Node) : bool :=
  match Children node with
  | Some ch => (len ch =? 0) && ptrEq (CurrentDir tr) node
  | None => false
  end.

Definition isSelected (node : Node) : bool :=
  ptrEq (GetSelectedChild tr) node.

(** The text of a node's line: what [nodeLine] returns, with the marker
    when the node is the selected child. *)
Definition lineText (node : Node) (depth : nat) : string :=
  let repr := match nodeLine node depth with Ok t => t | _ => EmptyString end in
  if isSelected node then repr ++ YellowString ext " <-" else repr.

(** The lines one visited node contributes. *)
Definition emit (nd : Node * nat) : list string :=
  lineText (fst nd) (snd nd) ::
  (if emptyCurrent (fst nd) then [placeholderLine ext (snd nd)] else []).

(** The selected index, followed along the pops. *)
Definition selStep (acc : Z * Z) (el : option Node * nat) : Z * Z :=
  let linen := fst acc + 1 in
  match fst el with
  | None => (linen, snd acc)
  | Some node =>
    let cur := if isSelected node then linen else snd acc in
    let cur := if emptyCurrent node then linen + 1 else cur in
    (linen, cur)
  end.

End Flattening.

(** No node lies so deep that [widthLim - indentRuneCount - 6] leaves the
    range of [int]. *)
Definition widthFits (widthLim : Z) (t : tree.Tree) : Prop :=
  widthLim <= GoInt.max_int /\
  Forall (fun nd => GoInt.min_int + 6 + 2 * Z.of_nat (snd nd) <= widthLim)
         (preorderPtr 0 (tree.Root t)).

(** ** Sample inputs *)

Definition sevenLines : list string :=
  ["/repo"; "  a"; "  b"; "  c"; "  d"; "  e"; "  f"].

Definition linesOfLength (n : nat) : list string := repeat "  f" n.

(** /repo with six files, the last one selected: seven lines. *)
Definition lastFile : tree.Node := file 7 "/repo/f" "f" 2048.

Definition sixFiles : tree.Node :=
  dir 1 "/repo" "/repo"
      (Some [Some (file 2 "/repo/a" "a" 10); Some (file 3 "/repo/b" "b" 20);
             Some (file 4 "/repo/c" "c" 30); Some (file 5 "/repo/d" "d" 40);
             Some (file 6 "/repo/e" "e" 50); Some lastFile]).

Definition sixFilesTree : tree.Tree :=
  tree.mkTree (Some sixFiles) (Some sixFiles) None (Some lastFile).

Definition sixFilesState : state.State :=
  state.mkState sixFilesTree "" false "".

(** The scenario of the specification: /repo holding x.txt (selected)
    and the empty directory sub. *)
Definition xTxt : tree.Node := file 2 "/repo/x.txt" "x.txt" 2048.

Definition subDir : tree.Node := dir 3 "/repo/sub" "sub" (Some []).

Definition repo : tree.Node :=
  dir 1 "/repo" "/repo" (Some [Some xTxt; Some subDir]).

Definition repoTree : tree.Tree :=
  tree.mkTree (Some repo) (Some repo) None (Some xTxt).

(** The same tree once the user has entered sub. *)
Definition subTree : tree.Tree :=
  tree.mkTree (Some repo) (Some subDir) None None.

(** A directory and a file of the same twelve-letter name. *)
Definition longDir : tree.Node :=
  dir 8 "/repo/abcdefghijkl" "abcdefghijkl" None.

Definition longFile : tree.Node :=
  file 9 "/repo/abcdefghijkl" "abcdefghijkl" 1.

Definition longDirTree : tree.Tree :=
  tree.mkTree (Some longDir) (Some longDir) None None.

Definition longFileTree : tree.Tree :=
  tree.mkTree (Some longFile) (Some longFile) None None.

(** An empty directory being browsed: nothing is selected. *)
Definition emptyDir : tree.Node := dir 1 "/repo" "/repo" (Some []).

Definition emptyDirTree : tree.Tree :=
  tree.mkTree (Some emptyDir) (Some emptyDir) None None.

Definition emptyDirState : state.State :=
  state.mkState emptyDirTree "" false "".

(** A file whose name holds a line feed, selected. *)
Definition lineFeedFile : tree.Node :=
  file 2 ("/repo/a" ++ nl ++ "b") ("a" ++ nl ++ "b") 10.

Definition lineFeedDir : tree.Node :=
  dir 1 "/repo" "/repo" (Some [Some lineFeedFile]).

Definition lineFeedState : state.State :=
  state.mkState
    (tree.mkTree (Some lineFeedDir) (Some lineFeedDir) None (Some lineFeedFile))
    "" false "".

(** ** Auxiliary notions of the statements *)

(** Values far from the ends of the [int] range. *)
Definition small (z : Z) : Prop := - 2 ^ 61 <= z <= 2 ^ 61.

(** The offset the crop persists for a window of positive height. *)
Definition nextOffset (N cl H P o : Z) : Z :=
  let a := if H + o - P <? cl + 1 then Z.min (cl + 1 - H + P) (N - H) else o in
  if cl <? P + a then Z.max (cl - P) 0 else a.

(** The operation bar, the third row of the heading. *)
Definition operationBarOf (ext : Ext) (s : state.State) : string :=
  let markedPath :=
    match tree.Marked (state.Tree s) with Some m => tree.Path m | None => "" end in
  let bar := ": " ++ state.OpBufRepr s in
  let bar := if negb (String.eqb markedPath "")
             then bar ++ " [" ++ markedPath ++ "]" else bar in
  if state.OpBufIsInput s
  then bar ++ " | " ++ BackgroundRender ext (state.InputBuf s) ++ " |"
  else bar.

(** What a stack still has to produce: the nodes and the pops behind its
    elements, the top (last) element first. *)
Definition stackWeight (s : stack.stack stackEl) : nat :=
  list_sum (map (fun el => weightPtr (fst el)) s).

Definition pendingNodes (s : stack.stack stackEl) : list (tree.Node * nat) :=
  flat_map (fun el => preorderPtr (snd el) (fst el)) (rev s).

Definition pendingPops (s : stack.stack stackEl) : list (option tree.Node * nat) :=
  flat_map (fun el => popsPtr (snd el) (fst el)) (rev s).

(** The selected row returned with the lines is the placeholder line of
    depth [d] (which ends in the selection marker). *)
Definition placeholderSelected (ext : Ext) (d : nat)
           (res : result (list string * Z)) : Prop :=
  exists lines cur,
    res = Ok (lines, cur) /\
    nth_error lines (Z.to_nat cur) = Some (placeholderLine ext d).

(** The node the selection rests on, as the heading reads it (package
    ui, lines 37-48): the selected child of the current directory or,
    when the accessor returns nil because there is no child to select,
    the current directory itself. *)
Definition selectionTarget (t : tree.Tree) : option tree.Node :=
  match tree.GetSelectedChild t with
  | Some sel => Some sel
  | None => tree.CurrentDir t
  end.

Definition currentDirIsSelectionTarget (t : tree.Tree) : Prop :=
  exists cd,
    tree.CurrentDir t = Some cd /\
    tree.ptrEq (selectionTarget t) cd = true.

(** The accessor returns nil or one of the children of the current
    directory: "the currently selected child of CurrentDir". *)
Definition selectedIsChildOfCurrentDir (t : tree.Tree) : Prop :=
  forall sel,
    tree.GetSelectedChild t = Some sel ->
    exists cd ch,
      tree.CurrentDir t = Some cd /\ tree.Children cd = Some ch /\
      In (Some sel) ch.

(** The string holds a line feed. *)
Definition hasLineFeed (s : string) : bool :=
  existsb (fun c => Ascii.eqb c (ascii_of_nat 10)) (list_ascii_of_string s).

(** Every pointer the traversal pops is a node. *)
Definition noNilPointers (t : tree.Tree) : Prop :=
  popsPtr 0 (tree.Root t)
  = map (fun nd => (Some (fst nd), snd nd)) (preorderPtr 0 (tree.Root t)).

(** The visited nodes lie at distinct addresses. *)
Definition distinctAddresses (t : tree.Tree) : Prop :=
  NoDup (map (fun nd => tree.addr (fst nd)) (preorderPtr 0 (tree.Root t))).

(** The lines of a run of visited nodes, one each. *)
Definition nodeLines (ext : Ext) (t : tree.Tree)
           (nodeLine : tree.Node -> nat -> result string)
           (P : list (tree.Node * nat)) : list string :=
  map (fun nd => lineText ext t nodeLine (fst nd) (snd nd)) P.

(** Rounding a positive mantissa whose value lies below 2^63: the result
    is zero, NaN or a positive finite number of exponent at most 11. *)
Definition smallPositive (x : spec_float) : Prop :=
  x = S754_zero false \/ x = S754_nan \/
  exists m e, x = S754_finite false m e /\ e <= 11.

(** Floats that are not above zero. *)
Definition notPositive (x : spec_float) : Prop :=
  match x with
  | S754_zero _ | S754_nan => True
  | S754_finite s _ _ | S754_infinity s => s = true
  end.

(** [num / den] rounded to the nearest integer, ties to even. *)
Definition roundHalfEven (num den : Z) : Z :=
  let q := num / den in
  let r := num mod den in
  if (den <? 2 * r) || ((2 * r =? den) && Z.odd q) then q + 1 else q.

(** Every byte is below 0x80. *)
Definition isASCII (s : string) : bool :=
  forallb (fun b => (b <? 0x80)%N) (bytesOf s).

(** How many of the nodes are the empty current directory. *)
Definition emptyCurrentCount (t : tree.Tree) (P : list (tree.Node * nat)) : nat :=
  List.length (filter (fun nd => emptyCurrent t (fst nd)) P).

(** * Properties *)

(** ** Integers *)

Lemma wrap_id (z : Z) : GoInt.in_int z -> GoInt.wrap z = z.
Proof.
  unfold GoInt.in_int, GoInt.min_int, GoInt.max_int, GoInt.wrap.
  intros Hz. rewrite Z.mod_small; lia.
Qed.

Lemma wrap_in_int (z : Z) : GoInt.in_int (GoInt.wrap z).
Proof.
  unfold GoInt.in_int, GoInt.min_int, GoInt.max_int, GoInt.wrap.
  pose proof (Z.mod_pos_bound (z + 2 ^ 63) (2 ^ 64) ltac:(lia)). lia.
Qed.

(** Rewrites the innermost wrapped expression when [lia] shows it in
    range. *)
Ltac unwrap_step :=
  match goal with
  | |- context [GoInt.wrap ?z] =>
    lazymatch z with
    | context [GoInt.wrap _] => fail
    | _ => rewrite (wrap_id z)
             by (unfold GoInt.in_int, GoInt.min_int, GoInt.max_int in *; lia)
    end
  end.

Ltac unwrap := unfold GoInt.add, GoInt.sub; repeat unwrap_step.

(** ** Slices *)

Lemma len_nonneg {A} (l : list A) : 0 <= len l.
Proof. unfold len. lia. Qed.

Lemma slice_ok {A} (l : list A) (lo hi : Z) :
  0 <= lo <= hi -> hi <= len l ->
  slice l lo hi = Ok (firstn (Z.to_nat (hi - lo)) (skipn (Z.to_nat lo) l)).
Proof.
  intros H1 H2. unfold slice.
  replace (0 <=? lo) with true by (symmetry; apply Z.leb_le; lia).
  replace (lo <=? hi) with true by (symmetry; apply Z.leb_le; lia).
  replace (hi <=? len l) with true by (symmetry; apply Z.leb_le; lia).
  reflexivity.
Qed.

Lemma slice_len {A} (l out : list A) (lo hi : Z) :
  slice l lo hi = Ok out -> len out = hi - lo.
Proof.
  unfold slice, len.
  destruct (0 <=? lo) eqn:E1; [|discriminate].
  destruct (lo <=? hi) eqn:E2; [|discriminate].
  destruct (hi <=? Z.of_nat (List.length l)) eqn:E3; [|discriminate].
  simpl. intros H. injection H as <-.
  apply Z.leb_le in E1, E2, E3.
  rewrite length_firstn, length_skipn. lia.
Qed.

Lemma slice_to_end {A} (l : list A) (lo : Z) :
  0 <= lo <= len l -> slice l lo (len l) = Ok (skipn (Z.to_nat lo) l).
Proof.
  intros H. rewrite slice_ok by lia. f_equal.
  apply firstn_all2. rewrite length_skipn. unfold len. lia.
Qed.

(** ** The viewport crop *)

(** The crop never touches the edge padding. *)
Lemma cropTree_EdgePadding {A} (lines : list A) (cl H : Z) (r : Renderer) :
  EdgePadding (snd (cropTree lines cl H r)) = EdgePadding r.
Proof.
  unfold cropTree, bind, getR, setOffsetMem, lift.
  destruct (0 <? H); simpl; reflexivity.
Qed.

Lemma cropTree_offset {A} (lines : list A) (cl H : Z) (r : Renderer) :
  0 < H -> small H -> small cl -> small (EdgePadding r) ->
  small (offsetMem r) -> small (len lines) ->
  offsetMem (snd (cropTree lines cl H r)) =
  nextOffset (len lines) cl H (EdgePadding r) (offsetMem r).
Proof.
  unfold small. intros HH H1 H2 H3 H4 H5.
  unfold cropTree, bind, getR, setOffsetMem, lift, nextOffset.
  replace (0 <? H) with true by (symmetry; apply Z.ltb_lt; lia).
  unwrap. simpl. 
  destruct (H + offsetMem r - EdgePadding r <? cl + 1); unwrap; reflexivity.
Qed.

(** Case analysis on the innermost comparison first. *)
Ltac case_ltb :=
  repeat match goal with
         | |- context [?a <? ?b] =>
           lazymatch a with
           | context [_ <? _] => fail
           | _ => lazymatch b with
                  | context [_ <? _] => fail
                  | _ => let E := fresh "E" in
                         destruct (a <? b) eqn:E;
                         [apply Z.ltb_lt in E | apply Z.ltb_ge in E]
                  end
           end
         end.

(** Where the list fills the window and the persisted offset is one the
    invariant allows, the next offset is again one. *)
Lemma nextOffset_in_range (N cl H P o : Z) :
  0 < H <= N -> 0 <= o <= N - H ->
  0 <= nextOffset N cl H P o <= N - H.
Proof.
  intros HN Ho. unfold nextOffset. case_ltb; lia.
Qed.

(** From such an offset a second call with the same arguments changes
    nothing. *)
Lemma nextOffset_idempotent (N cl H P o : Z) :
  0 < H <= N -> 0 <= o <= N - H ->
  nextOffset N cl H P (nextOffset N cl H P o) = nextOffset N cl H P o.
Proof.
  intros HN Ho. unfold nextOffset. case_ltb; lia.
Qed.

Lemma cropTree_in_range {A} (lines : list A) (cl H : Z) (r : Renderer) :
  0 < H <= len lines -> 0 <= offsetMem r <= len lines - H ->
  small cl -> small (EdgePadding r) -> small (len lines) ->
  exists out r',
    cropTree lines cl H r = (Ok out, r') /\
    len out = H /\
    0 <= offsetMem r' <= len lines - H /\
    offsetMem r' = nextOffset (len lines) cl H (EdgePadding r) (offsetMem r).
Proof.
  intros HN Ho H2 H3 H5.
  assert (H1 : small H) by (unfold small in *; lia).
  assert (H4 : small (offsetMem r)) by (unfold small in *; lia).
  pose proof (cropTree_offset lines cl H r ltac:(lia) H1 H2 H3 H4 H5) as Hoff.
  pose proof (nextOffset_in_range (len lines) cl H (EdgePadding r) (offsetMem r)
                HN Ho) as Hrange.
  revert Hoff. unfold cropTree, bind, getR, setOffsetMem, lift.
  replace (0 <? H) with true by (symmetry; apply Z.ltb_lt; lia).
  cbv zeta. simpl.
  set (o' := if _ <? _ then Z.max _ 0 else _).
  intros Hoff. rewrite Hoff in *.
  set (n := nextOffset _ _ _ _ _) in *.
  assert (Hw : H +i n = H + n) by (unfold small in *; unwrap; reflexivity).
  rewrite Hw, Z.min_l by lia.
  rewrite slice_ok by lia.
  eexists _, _. split; [reflexivity|]. split; [|split; [exact Hrange | reflexivity]].
  unfold len in *. rewrite length_firstn, length_skipn. lia.
Qed.

(** Under the same conditions two consecutive calls with unchanged
    selection and sizes leave the renderer as the first call left it. *)
Lemma cropTree_twice_in_range {A} (lines : list A) (cl H : Z) (r : Renderer) :
  0 < H <= len lines -> 0 <= offsetMem r <= len lines - H ->
  small cl -> small (EdgePadding r) -> small (len lines) ->
  snd (cropTree lines cl H (snd (cropTree lines cl H r)))
  = snd (cropTree lines cl H r).
Proof.
  intros HN Ho H2 H3 H5.
  destruct (cropTree_in_range lines cl H r HN Ho H2 H3 H5)
    as (out & r1 & E1 & _ & Hr1 & Hn1).
  pose proof (cropTree_EdgePadding lines cl H r) as P1.
  rewrite E1 in *. cbn [snd] in *.
  assert (H3' : small (EdgePadding r1)) by (rewrite P1; exact H3).
  destruct (cropTree_in_range lines cl H r1 HN Hr1 H2 H3' H5)
    as (out2 & r2 & E2 & _ & _ & Hn2).
  pose proof (cropTree_EdgePadding lines cl H r1) as P2.
  rewrite E2 in *. cbn [snd] in *.
  rewrite Hn1, P1 in Hn2.
  rewrite (nextOffset_idempotent _ _ _ _ _ HN Ho), <- Hn1 in Hn2.
  destruct r1, r2. cbn in *. congruence.
Qed.

(** C1, at the failing input: a list of seven lines with the last one
    selected, a window of ten rows, edge padding five and a fresh renderer.
    The top-boundary branch clamps the offset to [linesLen - windowHeight],
    which is negative here; the offset -3 is persisted and the slice
    expression [lines[-3:7]] panics. *)
Theorem cropTree_short_list_negative_offset :
  cropTree sevenLines 6 10 (mkRenderer 5 0) = (Panic, mkRenderer 5 (-3)).
Proof. vm_compute. reflexivity. Qed.

(** C6, at the failing input: the renderer last drew a list of 111 lines
    with the last one selected (offset 101); the list then shrinks to 21
    lines with the last one selected.  The first call persists offset 15,
    beyond [linesLen - windowHeight = 11], and shows six lines; a second
    call with the same arguments moves the offset to 11. *)
Theorem cropTree_second_call_moves_offset :
  snd (cropTree (linesOfLength 111) 110 10 (mkRenderer 5 0)) = mkRenderer 5 101 /\
  snd (cropTree (linesOfLength 21) 20 10 (mkRenderer 5 101)) = mkRenderer 5 15 /\
  fst (cropTree (linesOfLength 21) 20 10 (mkRenderer 5 101))
    = Ok (linesOfLength 6) /\
  snd (cropTree (linesOfLength 21) 20 10 (mkRenderer 5 15)) = mkRenderer 5 11 /\
  fst (cropTree (linesOfLength 21) 20 10 (mkRenderer 5 15))
    = Ok (linesOfLength 10).
Proof. vm_compute. repeat split; reflexivity. Qed.

(** C7 as stated fails: with a persisted offset of 1 and a window height
    of 0 the crop returns the lines from index 1 on, not the full list. *)
Lemma cropTree_zero_height_drops_lines :
  cropTree ["/repo"; "  a"; "  b"] 0 0 (mkRenderer 5 1)
    = (Ok ["  a"; "  b"], mkRenderer 5 1) /\
  cropTree ["/repo"; "  a"; "  b"] 0 0 (mkRenderer 5 1)
    <> (Ok ["/repo"; "  a"; "  b"], mkRenderer 5 1).
Proof. split; [vm_compute; reflexivity | vm_compute; discriminate]. Qed.

(** C7, amended: with a window height [H <= 0] and a persisted offset
    within the list, the crop returns the lines from the persisted offset
    on (the full list when the offset is 0) and leaves the renderer, and
    so the persisted offset, untouched. *)
Theorem cropTree_nonpositive_height {A} (lines : list A) (cl H : Z) (r : Renderer) :
  H <= 0 -> 0 <= offsetMem r <= len lines ->
  cropTree lines cl H r = (Ok (skipn (Z.to_nat (offsetMem r)) lines), r) /\
  (offsetMem r = 0 -> cropTree lines cl H r = (Ok lines, r)).
Proof.
  intros HH Ho.
  assert (E : cropTree lines cl H r
              = (Ok (skipn (Z.to_nat (offsetMem r)) lines), r)).
  { unfold cropTree, bind, getR, lift.
    replace (0 <? H) with false by (symmetry; apply Z.ltb_ge; lia).
    rewrite slice_to_end by lia. reflexivity. }
  split; [exact E|]. intros H0. rewrite E, H0. reflexivity.
Qed.

Lemma cropTree_nonpositive_height_witness :
  cropTree ["/repo"; "  a"; "  b"] 2 (-1) (mkRenderer 5 1)
    = (Ok ["  a"; "  b"], mkRenderer 5 1).
Proof.
  apply (cropTree_nonpositive_height ["/repo"; "  a"; "  b"] 2 (-1) (mkRenderer 5 1));
    simpl; unfold len; simpl; lia.
Defined.

(** ** The size formatter *)

(** The unit loop stops within [unitsLimit] rounds. *)
Lemma sizeLoop_returns (fuel : nat) :
  forall (s base : float) (i unitsLimit : Z),
    (Z.to_nat (unitsLimit - i) <= fuel)%nat ->
    ui.sizeLoop fuel s base i unitsLimit <> OutOfFuel.
Proof.
  induction fuel as [|fuel IH]; intros s base i u Hf; simpl.
  - destruct (i <? u) eqn:E.
    + apply Z.ltb_lt in E. lia.
    + rewrite andb_false_r. discriminate.
  - destruct ((base <=? s)%float && (i <? u)) eqn:E; [|discriminate].
    apply andb_prop in E. destruct E as [_ E]. apply Z.ltb_lt in E.
    apply IH. lia.
Qed.

Lemma formatSize_returns_or_panics (s base : float) :
  ui.formatSize s base <> OutOfFuel.
Proof.
  unfold ui.formatSize.
  pose proof (sizeLoop_returns (Z.to_nat (len ui.sizes)) s base 0 (len ui.sizes)
                ltac:(simpl; lia)) as H.
  destruct (ui.sizeLoop _ _ _ _ _) as [[s' i]| |]; simpl; try congruence.
  destruct (nth_error ui.sizes (Z.to_nat i)); discriminate.
Qed.

(** The loop bound [i < unitsLimit] lets [i] reach [len(sizes)]: from
    [base^7] on, [sizes[i]] is out of range. *)
Lemma formatSize_index_out_of_range :
  ui.formatSize 0x1p70%float 1024%float = Panic /\
  ui.formatSize 0x1p63%float 1024%float = Ok "8.00 Eb".
Proof. split; vm_compute; reflexivity. Qed.

(** C5 as stated fails: the formatter does not return the four strings
    of the claim. *)
Lemma formatSize_not_as_claimed :
  ~ (ui.formatSize 0%float 1024%float = Ok "0 B" /\
     ui.formatSize 1536%float 1024%float = Ok "1.50 Kb" /\
     ui.formatSize 1023%float 1024%float = Ok "1023 b" /\
     ui.formatSize 2048%float 1024%float = Ok "2.00 Kb").
Proof. intros [H _]. vm_compute in H. discriminate H. Qed.

(** C5, amended: with base 1024 the size formatter returns exactly "0 b"
    for 0, "2 Kb" for 1536, "1023 b" for 1023 (the unit changes only at
    [>= base]) and "2 Kb" for 2048; two decimals are printed only from the
    third unit (Mb) on. *)
Theorem formatSize_examples :
  ui.formatSize 0%float 1024%float = Ok "0 b" /\
  ui.formatSize 1536%float 1024%float = Ok "2 Kb" /\
  ui.formatSize 1023%float 1024%float = Ok "1023 b" /\
  ui.formatSize 2048%float 1024%float = Ok "2 Kb" /\
  ui.formatSize 1572864%float 1024%float = Ok "1.50 Mb".
Proof. repeat split; vm_compute; reflexivity. Qed.

(** ** The heading and the render entry point *)

Section Heading.

Import tree.

Variable ext : Ext.

Lemma renderHeading_no_selection (s : state.State) (cd : Node) :
  CurrentDir (state.Tree s) = Some cd ->
  GetSelectedChild (state.Tree s) = None ->
  ui.renderHeading ext s =
  Ok (GreenString ext ("> " ++ Path cd ++ "/...") ++ nl ++
      MagentaString ext "-- : 0 B" ++ nl ++ operationBarOf ext s, 3).
Proof.
  intros Hcd Hsel. unfold ui.renderHeading, operationBarOf.
  rewrite Hcd, Hsel. reflexivity.
Qed.

Lemma renderHeading_selection (s : state.State) (cd sel : Node) (size : string) :
  CurrentDir (state.Tree s) = Some cd ->
  GetSelectedChild (state.Tree s) = Some sel ->
  ui.formatSize (float64.ofInt (Size (Info sel))) 1024%float = Ok size ->
  ui.renderHeading ext s =
  Ok (GreenString ext ("> " ++ Path sel) ++ nl ++
      MagentaString ext (FormatRFC822 ext (ModTime (Info sel)) ++ " : " ++ size)
      ++ nl ++ operationBarOf ext s, 3).
Proof.
  intros Hcd Hsel Hsize. unfold ui.renderHeading, operationBarOf.
  rewrite Hcd, Hsel, Hsize. reflexivity.
Qed.

(** Whenever the heading is rendered it is three rows joined by line
    feeds and the reported count is 3. *)
Lemma renderHeading_count (s : state.State) (h : string) (n : Z) :
  ui.renderHeading ext s = Ok (h, n) ->
  n = 3 /\ exists r1 r2 r3, h = strings.Join [r1; r2; r3] nl.
Proof.
  unfold ui.renderHeading.
  destruct (CurrentDir (state.Tree s)) as [cd|]; [|discriminate].
  destruct (GetSelectedChild (state.Tree s)) as [sel|]; simpl.
  - destruct (ui.formatSize _ _) as [size| |]; simpl; try discriminate.
    intros H. injection H as <- <-. split; [reflexivity|].
    eexists _, _, _. reflexivity.
  - intros H. injection H as <- <-. split; [reflexivity|].
    eexists _, _, _. reflexivity.
Qed.

Lemma Render_unfold (s : state.State) (h : string) (n winHeight winWidth : Z)
      (r : Renderer) :
  ui.renderHeading ext s = Ok (h, n) ->
  ui.Render ext s winHeight winWidth r =
  bind (ui.renderTreeWithContent ext (state.Tree s) (winHeight -i 3) winWidth)
       (fun renderedTree => ret (h ++ nl ++ renderedTree)) r.
Proof.
  intros Hh. destruct (renderHeading_count s h n Hh) as [-> _].
  unfold ui.Render, bind at 1, lift. rewrite Hh. reflexivity.
Qed.

Lemma renderTreeWithContent_too_small (t : Tree) (winHeight winWidth : Z)
      (r : Renderer) :
  winWidth < ui.minWidth \/ winHeight < ui.minHeight ->
  ui.renderTreeWithContent ext t winHeight winWidth r
  = (Ok ("too small =(" ++ nl), r).
Proof.
  intros H. unfold ui.renderTreeWithContent.
  replace ((winWidth <? ui.minWidth) || (winHeight <? ui.minHeight)) with true;
    [reflexivity|].
  symmetry. apply orb_true_iff.
  destruct H; [left | right]; apply Z.ltb_lt; assumption.
Qed.

End Heading.

(** C9: when the width is below [minWidth] or the height is below
    [minHeight], the tree/preview block is the literal notice and no
    layout is attempted: [renderTreeWithContent] returns it at once, and
    [Render], whose heading takes three rows of a window height that can be
    reduced by three, returns the heading followed by the notice and
    leaves the renderer as it was. *)
Theorem Render_too_small (ext : Ext) (s : state.State) (winHeight winWidth : Z)
        (r : Renderer) (h : string) (n : Z) :
  winWidth < ui.minWidth \/ winHeight < ui.minHeight ->
  GoInt.in_int (winHeight - 3) ->
  ui.renderHeading ext s = Ok (h, n) ->
  ui.renderTreeWithContent ext (state.Tree s) winHeight winWidth r
    = (Ok ("too small =(" ++ nl), r) /\
  ui.Render ext s winHeight winWidth r
    = (Ok (h ++ nl ++ "too small =(" ++ nl), r).
Proof.
  intros Hsmall Hrange Hh. split.
  - apply renderTreeWithContent_too_small. exact Hsmall.
  - rewrite (Render_unfold ext s h n winHeight winWidth r Hh).
    unfold bind.
    rewrite renderTreeWithContent_too_small; [reflexivity|].
    unfold GoInt.sub. rewrite wrap_id by exact Hrange.
    unfold ui.minHeight in *. destruct Hsmall; [left; assumption | right; lia].
Qed.

Lemma Render_too_small_witness :
  ui.Render sampleExt emptyDirState 9 80 (mkRenderer 5 0)
  = (Ok (strings.Join [sgr "32" "> /repo/..."; sgr "35" "-- : 0 B"; ": "] nl
         ++ nl ++ "too small =(" ++ nl), mkRenderer 5 0).
Proof.
  apply (Render_too_small sampleExt emptyDirState 9 80 (mkRenderer 5 0)
           (strings.Join [sgr "32" "> /repo/..."; sgr "35" "-- : 0 B"; ": "] nl) 3).
  - right. unfold ui.minHeight. lia.
  - unfold GoInt.in_int, GoInt.min_int, GoInt.max_int. lia.
  - reflexivity.
Defined.

(** C8, at the failing input: /repo with six files, the last one
    selected, in a window of 13 rows and 40 columns, edge padding 5 and a
    fresh renderer.  The heading takes three rows, the seven lines are
    cropped to a window of ten, the offset becomes -3 and the slice
    expression in [cropTree] panics: [Render] returns nothing. *)
Theorem Render_panics_on_short_tree (ext : Ext) :
  ui.renderTree ext sixFilesTree (halfWidth 40)
    = Ok ([BlueString ext "/repo"; "  a"; "  b"; "  c"; "  d"; "  e";
           "  f" ++ YellowString ext " <-"], 6) /\
  ui.Render ext sixFilesState 13 40 (mkRenderer 5 0)
    = (Panic, mkRenderer 5 (-3)).
Proof. split; vm_compute; reflexivity. Qed.

(** ** The stack *)

Lemma Pop_Push {T} (s : stack.stack T) (el : T) :
  stack.Pop (stack.Push s el) = Ok (el, s).
Proof.
  unfold stack.Pop, stack.Push.
  rewrite length_app. simpl.
  replace (List.length s + 1 - 1)%nat with (List.length s) by lia.
  rewrite nth_error_app2 by lia. rewrite Nat.sub_diag. simpl.
  rewrite firstn_app, Nat.sub_diag, firstn_all. simpl.
  rewrite app_nil_r. reflexivity.
Qed.

Lemma Len_Push {T} (s : stack.stack T) (el : T) :
  (0 <? stack.Len (stack.Push s el)) = true.
Proof.
  unfold stack.Len, stack.Push, len. rewrite length_app. simpl.
  apply Z.ltb_lt. lia.
Qed.

Lemma pushChildren_app (ch : list (option tree.Node)) (depth : nat)
      (s : stack.stack stackEl) :
  pushChildren ch depth s
  = (s ++ map (fun c => (c, (depth + 1)%nat)) (rev ch))%list.
Proof.
  unfold pushChildren. generalize (rev ch) as l. intros l. revert s.
  induction l as [|c l IH]; intros s; simpl.
  - rewrite app_nil_r. reflexivity.
  - rewrite IH. unfold stack.Push. rewrite <- app_assoc. reflexivity.
Qed.

(** ** Unfolding the tree functions at a node *)

Lemma weight_children (a : N) (p : string) (i : tree.FileInfo)
      (l : list (option tree.Node)) :
  weight (tree.mkNode a p i (Some l)) = S (list_sum (map weightPtr l)).
Proof.
  simpl. f_equal. induction l as [|c l IH]; simpl; [reflexivity|].
  rewrite IH. destruct c; reflexivity.
Qed.

Lemma preorder_children (d : nat) (a : N) (p : string) (i : tree.FileInfo)
      (l : list (option tree.Node)) :
  preorder d (tree.mkNode a p i (Some l))
  = (tree.mkNode a p i (Some l), d) :: flat_map (preorderPtr (d + 1)) l.
Proof. reflexivity. Qed.

Lemma pops_children (d : nat) (a : N) (p : string) (i : tree.FileInfo)
      (l : list (option tree.Node)) :
  pops d (tree.mkNode a p i (Some l))
  = (Some (tree.mkNode a p i (Some l)), d) :: flat_map (popsPtr (d + 1)) l.
Proof. reflexivity. Qed.

Lemma weight_pos (n : tree.Node) : (1 <= weight n)%nat.
Proof. destruct n as [a p i ch]. simpl. lia. Qed.

Lemma weightPtr_pos (p : option tree.Node) : (1 <= weightPtr p)%nat.
Proof. destruct p; simpl; [apply weight_pos | lia]. Qed.

Lemma stackWeight_Push (s : stack.stack stackEl) (el : stackEl) :
  stackWeight (stack.Push s el) = (stackWeight s + weightPtr (fst el))%nat.
Proof.
  unfold stackWeight, stack.Push. rewrite map_app, list_sum_app.
  f_equal. unfold list_sum. cbn [map fold_right]. lia.
Qed.

Lemma stackWeight_pushChildren (ch : list (option tree.Node)) (d : nat)
      (s : stack.stack stackEl) :
  stackWeight (pushChildren ch d s)
  = (stackWeight s + list_sum (map weightPtr ch))%nat.
Proof.
  rewrite pushChildren_app. unfold stackWeight.
  rewrite map_app, list_sum_app, map_map. cbn [fst]. f_equal.
  induction ch as [|c ch IH]; [reflexivity|].
  cbn [rev map]. rewrite map_app, list_sum_app, IH.
  unfold list_sum. cbn [map fold_right]. lia.
Qed.

Lemma pendingNodes_Push (s : stack.stack stackEl) (el : stackEl) :
  pendingNodes (stack.Push s el)
  = (preorderPtr (snd el) (fst el) ++ pendingNodes s)%list.
Proof.
  unfold pendingNodes, stack.Push. rewrite rev_app_distr. reflexivity.
Qed.

Lemma pendingPops_Push (s : stack.stack stackEl) (el : stackEl) :
  pendingPops (stack.Push s el)
  = (popsPtr (snd el) (fst el) ++ pendingPops s)%list.
Proof.
  unfold pendingPops, stack.Push. rewrite rev_app_distr. reflexivity.
Qed.

Lemma pendingNodes_pushChildren (ch : list (option tree.Node)) (d : nat)
      (s : stack.stack stackEl) :
  pendingNodes (pushChildren ch d s)
  = (flat_map (preorderPtr (d + 1)) ch ++ pendingNodes s)%list.
Proof.
  rewrite pushChildren_app. unfold pendingNodes.
  rewrite rev_app_distr, <- map_rev, rev_involutive, flat_map_app.
  f_equal. induction ch as [|c ch IH]; simpl; [reflexivity|].
  rewrite IH. reflexivity.
Qed.

Lemma pendingPops_pushChildren (ch : list (option tree.Node)) (d : nat)
      (s : stack.stack stackEl) :
  pendingPops (pushChildren ch d s)
  = (flat_map (popsPtr (d + 1)) ch ++ pendingPops s)%list.
Proof.
  rewrite pushChildren_app. unfold pendingPops.
  rewrite rev_app_distr, <- map_rev, rev_involutive, flat_map_app.
  f_equal. induction ch as [|c ch IH]; simpl; [reflexivity|].
  rewrite IH. reflexivity.
Qed.

(** ** The traversal loop against the pre-order *)

Section LoopSpec.

Import tree.

Variable ext : Ext.
Variable tr : Tree.
Variable nodeLine : Node -> nat -> result string.

Lemma renderLoop_empty (fuel : nat) (linen cur : Z) (lines : list string) :
  renderLoop ext tr nodeLine fuel [] linen cur lines = Ok (lines, cur).
Proof. destruct fuel; reflexivity. Qed.

Lemma renderLoop_step (fuel : nat) (s : stack.stack stackEl) (el : stackEl)
      (linen cur : Z) (lines : list string) :
  renderLoop ext tr nodeLine (S fuel) (stack.Push s el) linen cur lines =
  match fst el with
  | None => renderLoop ext tr nodeLine fuel s (linen + 1) cur lines
  | Some node =>
    rbind (nodeLine node (snd el)) (fun repr =>
    let selected := ptrEq (GetSelectedChild tr) node in
    let repr := if selected then repr ++ YellowString ext " <-" else repr in
    let cur := if selected then linen + 1 else cur in
    let lines := (lines ++ [repr])%list in
    match Children node with
    | Some ch =>
      let empty := (len ch =? 0) && ptrEq (CurrentDir tr) node in
      renderLoop ext tr nodeLine fuel (pushChildren ch (snd el) s) (linen + 1)
                 (if empty then linen + 1 + 1 else cur)
                 (if empty then (lines ++ [placeholderLine ext (snd el)])%list
                  else lines)
    | None => renderLoop ext tr nodeLine fuel s (linen + 1) cur lines
    end)
  end.
Proof.
  cbn [renderLoop]. rewrite Len_Push, Pop_Push. cbn [rbind].
  destruct el as [[node|] d]; reflexivity.
Qed.

Lemma stackWeight_zero (s : stack.stack stackEl) :
  (stackWeight s <= 0)%nat -> s = [].
Proof.
  destruct s as [|el s]; [reflexivity|].
  unfold stackWeight. cbn [map]. unfold list_sum. cbn [fold_right].
  pose proof (weightPtr_pos (fst el)). lia.
Qed.

(** With fuel for every pending pop the loop returns; its lines are the
    lines already collected followed by those of the pending nodes in
    pre-order, and its selected index is the one followed along the pops. *)
Lemma renderLoop_preorder (fuel : nat) :
  forall (s : stack.stack stackEl) (linen cur : Z) (lines : list string),
    (stackWeight s <= fuel)%nat ->
    Forall (fun nd => exists t, nodeLine (fst nd) (snd nd) = Ok t)
           (pendingNodes s) ->
    renderLoop ext tr nodeLine fuel s linen cur lines
    = Ok ((lines ++ flat_map (emit ext tr nodeLine) (pendingNodes s))%list,
          snd (fold_left (selStep tr) (pendingPops s) (linen, cur))).
Proof.
  induction fuel as [|fuel IH]; intros s linen cur lines Hw Hok.
  - rewrite (stackWeight_zero s Hw). rewrite renderLoop_empty.
    cbn. rewrite app_nil_r. reflexivity.
  - destruct s as [|el s _] using rev_ind.
    + rewrite renderLoop_empty. cbn. rewrite app_nil_r. reflexivity.
    + change (s ++ [el])%list with (stack.Push s el) in *.
      rewrite renderLoop_step.
      rewrite stackWeight_Push in Hw.
      rewrite pendingNodes_Push in Hok. rewrite pendingNodes_Push, pendingPops_Push.
      destruct el as [[node|] d]; cbn [fst snd] in *.
      * (* a node *)
        destruct node as [a p i ch]. cbn [preorderPtr popsPtr weightPtr] in *.
        destruct ch as [ch|].
        -- rewrite preorder_children in *. rewrite pops_children.
           rewrite weight_children in Hw.
           inversion Hok as [|x l [t Ht] Hrest]; subst.
           cbn [fst snd] in Ht. rewrite Ht. cbn [rbind Children].
           rewrite IH.
           ++ rewrite pendingNodes_pushChildren, pendingPops_pushChildren.
              cbn [flat_map fold_left app]. f_equal. f_equal.
              unfold emit, lineText, emptyCurrent, isSelected.
              cbn [fst snd Children]. rewrite Ht.
              destruct ((len ch =? 0) && ptrEq (CurrentDir tr) _);
                destruct (ptrEq (GetSelectedChild tr) _);
                cbn [app]; rewrite <- ?app_assoc; reflexivity.
           ++ rewrite stackWeight_pushChildren. lia.
           ++ rewrite pendingNodes_pushChildren. exact Hrest.
        -- cbn [preorder pops] in *.
           inversion Hok as [|x l [t Ht] Hrest]; subst.
           cbn [fst snd] in Ht. rewrite Ht. cbn [rbind Children].
           rewrite IH.
           ++ cbn [flat_map fold_left app]. f_equal. f_equal.
              unfold emit, lineText, emptyCurrent, isSelected.
              cbn [fst snd Children]. rewrite Ht.
              destruct (ptrEq (GetSelectedChild tr) _);
                cbn [app]; rewrite <- ?app_assoc; reflexivity.
           ++ cbn [weight] in Hw. lia.
           ++ exact Hrest.
      * (* a nil pointer *)
        cbn [preorderPtr popsPtr app] in *. rewrite IH.
        -- reflexivity.
        -- cbn [weightPtr] in Hw. lia.
        -- exact Hok.
Qed.

(** The whole traversal, started at the root. *)
Lemma renderTreeLoop_preorder :
  Forall (fun nd => exists t, nodeLine (fst nd) (snd nd) = Ok t)
         (preorderPtr 0 (Root tr)) ->
  renderTreeLoop ext tr nodeLine
  = Ok (flat_map (emit ext tr nodeLine) (preorderPtr 0 (Root tr)),
        snd (fold_left (selStep tr) (popsPtr 0 (Root tr)) (-1, 0))).
Proof.
  intros Hok. unfold renderTreeLoop, stack.newStack.
  rewrite renderLoop_preorder.
  - rewrite pendingNodes_Push, pendingPops_Push.
    unfold pendingNodes, pendingPops. cbn [rev flat_map fst snd app].
    rewrite !app_nil_r. reflexivity.
  - rewrite stackWeight_Push. cbn. lia.
  - rewrite pendingNodes_Push. unfold pendingNodes.
    cbn [rev flat_map fst snd]. rewrite app_nil_r. exact Hok.
Qed.

End LoopSpec.

(** ** Lines of the two packages *)

Lemma RuneCountInString_indent (d : nat) :
  utf8.RuneCountInString (strings.Repeat "  " d) = 2 * Z.of_nat d.
Proof.
  unfold utf8.RuneCountInString, utf8.runes, bytesOf, len.
  induction d as [|d IH]; [reflexivity|].
  cbn [strings.Repeat]. 
  change ("  " ++ strings.Repeat "  " d)
    with (String " " (String " " (strings.Repeat "  " d))).
  cbn [list_ascii_of_string map]. 
  change (N_of_ascii " ") with 32%N.
  cbn [utf8.decode]. change (32 <? 128)%N with true. cbv iota.
  cbn [map List.length]. lia.
Qed.

Lemma main_nodeLine_ok (ext : Ext) (node : tree.Node) (d : nat) :
  exists t, main.nodeLine ext node d = Ok t.
Proof. unfold main.nodeLine. eexists. reflexivity. Qed.

Lemma ui_nodeLine_ok (ext : Ext) (t : tree.Tree) (widthLim : Z)
      (node : tree.Node) (d : nat) :
  widthLim <= GoInt.max_int ->
  GoInt.min_int + 6 + 2 * Z.of_nat d <= widthLim ->
  exists txt, ui.nodeLine ext t widthLim node d = Ok txt.
Proof.
  intros Hmax Hmin. unfold ui.nodeLine.
  rewrite RuneCountInString_indent.
  assert (E1 : widthLim -i 6 = widthLim - 6) by (unwrap; reflexivity).
  assert (E2 : widthLim -i 2 * Z.of_nat d -i 6 = widthLim - 2 * Z.of_nat d - 6)
    by (unwrap; reflexivity).
  rewrite E1, E2.
  destruct (widthLim - 6 <? _) eqn:E.
  - apply Z.ltb_lt in E. unfold utf8.RuneCountInString in E.
    pose proof (len_nonneg (utf8.runes (tree.Name (tree.Info node)))).
    rewrite slice_ok by lia. cbn [rbind]. eexists. reflexivity.
  - cbn [rbind]. eexists. reflexivity.
Qed.

Lemma widthFits_lines (ext : Ext) (t : tree.Tree) (widthLim : Z) :
  widthFits widthLim t ->
  Forall (fun nd => exists txt,
              ui.nodeLine ext t widthLim (fst nd) (snd nd) = Ok txt)
         (preorderPtr 0 (tree.Root t)).
Proof.
  intros [Hmax Hall]. eapply Forall_impl; [|exact Hall].
  intros [node d] Hd. apply ui_nodeLine_ok; assumption.
Qed.

(** Both packages' renderTree, on the pre-order of the tree. *)
Lemma main_renderTree_spec (ext : Ext) (t : tree.Tree) :
  main.renderTree ext t
  = Ok (flat_map (emit ext t (main.nodeLine ext)) (preorderPtr 0 (tree.Root t)),
        snd (fold_left (selStep t) (popsPtr 0 (tree.Root t)) (-1, 0))).
Proof.
  unfold main.renderTree. apply renderTreeLoop_preorder.
  apply Forall_forall. intros nd _. apply main_nodeLine_ok.
Qed.

Lemma ui_renderTree_spec (ext : Ext) (t : tree.Tree) (widthLim : Z) :
  widthFits widthLim t ->
  ui.renderTree ext t widthLim
  = Ok (flat_map (emit ext t (ui.nodeLine ext t widthLim))
                 (preorderPtr 0 (tree.Root t)),
        snd (fold_left (selStep t) (popsPtr 0 (tree.Root t)) (-1, 0))).
Proof.
  intros Hfit. unfold ui.renderTree. apply renderTreeLoop_preorder.
  apply widthFits_lines. exact Hfit.
Qed.

(** C2: the lines renderTree returns, in both packages, are the lines of
    the visited nodes in pre-order of the stored child order (each node's
    line, followed by the placeholder when the node is the empty current
    directory): a node comes first, then the whole subtree of each child,
    siblings left to right, so children [a, b, c] give all of a's subtree,
    then b's, then c's; a node whose children value is nil is listed and
    not descended into.  The loop, which pushes the children in reverse on
    its stack, returns with the bound the model gives it. *)
Theorem renderTree_preorder (ext : Ext) (t : tree.Tree) (widthLim : Z) :
  widthFits widthLim t ->
  (exists cur,
      main.renderTree ext t
      = Ok (flat_map (emit ext t (main.nodeLine ext))
                     (preorderPtr 0 (tree.Root t)), cur)) /\
  (exists cur,
      ui.renderTree ext t widthLim
      = Ok (flat_map (emit ext t (ui.nodeLine ext t widthLim))
                     (preorderPtr 0 (tree.Root t)), cur)) /\
  (forall d addr path info a b c,
      preorder d (tree.mkNode addr path info (Some [Some a; Some b; Some c]))
      = ((tree.mkNode addr path info (Some [Some a; Some b; Some c]), d)
           :: preorder (d + 1) a ++ preorder (d + 1) b ++ preorder (d + 1) c)%list) /\
  (forall d addr path info,
      preorder d (tree.mkNode addr path info None)
      = [(tree.mkNode addr path info None, d)]).
Proof.
  intros Hfit. split; [|split; [|split]].
  - eexists. apply main_renderTree_spec.
  - eexists. apply ui_renderTree_spec. exact Hfit.
  - intros. rewrite preorder_children. cbn [flat_map preorderPtr].
    rewrite app_nil_r. reflexivity.
  - reflexivity.
Qed.

Lemma renderTree_preorder_witness :
  widthFits 40 repoTree /\
  ui.renderTree sampleExt repoTree 40
  = Ok ([sgr "34" "/repo"; "  x.txt" ++ sgr "33" " <-"; "  " ++ sgr "34" "sub"], 1).
Proof.
  assert (Hfit : widthFits 40 repoTree).
  { split; [vm_compute; discriminate|].
    repeat constructor; vm_compute; discriminate. }
  split; [exact Hfit|].
  destruct (renderTree_preorder sampleExt repoTree 40 Hfit) as (_ & [cur H] & _).
  rewrite H. vm_compute in H. injection H as <-. vm_compute. reflexivity.
Defined.

(** ** The placeholder of an empty current directory *)

Section Placeholder.

Import tree.

Variable ext : Ext.
Variable tr : Tree.
Variable nodeLine : Node -> nat -> result string.
Variable cd : Node.
Hypothesis Hcurrent : CurrentDir tr = Some cd.

Lemma emptyCurrent_other (node : Node) :
  addr node <> addr cd -> emptyCurrent tr node = false.
Proof.
  intros Hne. unfold emptyCurrent. rewrite Hcurrent. cbn [ptrEq].
  destruct (Children node); [|reflexivity].
  replace (addr cd =? addr node)%N with false;
    [apply andb_false_r|].
  symmetry. apply N.eqb_neq. congruence.
Qed.

Lemma emptyCurrent_current :
  Children cd = Some [] -> emptyCurrent tr cd = true.
Proof.
  intros Hch. unfold emptyCurrent. rewrite Hch, Hcurrent. cbn [ptrEq].
  rewrite N.eqb_refl. reflexivity.
Qed.

Lemma flat_map_emit_others (P : list (Node * nat)) :
  (forall nd, In nd P -> addr (fst nd) <> addr cd) ->
  flat_map (emit ext tr nodeLine) P = nodeLines ext tr nodeLine P.
Proof.
  induction P as [|nd P IH]; intros H; [reflexivity|].
  cbn [flat_map nodeLines map]. unfold emit at 1.
  rewrite emptyCurrent_other by (apply H; left; reflexivity).
  cbn [app]. f_equal. apply IH. intros x Hx. apply H. right. exact Hx.
Qed.

(** Among nodes at distinct addresses the current directory is met once;
    if it is empty, its line is followed by the placeholder and every
    other line is a node's. *)
Lemma flat_map_emit_split (P : list (Node * nat)) (d : nat) :
  NoDup (map (fun nd => addr (fst nd)) P) ->
  Children cd = Some [] ->
  In (cd, d) P ->
  exists before after,
    P = (before ++ (cd, d) :: after)%list /\
    (forall nd, In nd (before ++ after)%list -> addr (fst nd) <> addr cd) /\
    flat_map (emit ext tr nodeLine) P
    = (nodeLines ext tr nodeLine before
         ++ [lineText ext tr nodeLine cd d; placeholderLine ext d]
         ++ nodeLines ext tr nodeLine after)%list.
Proof.
  intros Hnd Hch Hin.
  destruct (in_split _ _ Hin) as (before & after & ->).
  exists before, after. split; [reflexivity|].
  assert (Hothers : forall nd, In nd (before ++ after)%list ->
                               addr (fst nd) <> addr cd).
  { rewrite map_app in Hnd. cbn [map fst] in Hnd.
    apply NoDup_remove_2 in Hnd. intros nd Hx Heq. apply Hnd.
    rewrite <- map_app, <- Heq.
    apply (in_map (fun nd => addr (fst nd))). exact Hx. }
  split; [exact Hothers|].
  rewrite flat_map_app. cbn [flat_map].
  rewrite !flat_map_emit_others.
  - unfold emit. cbn [fst snd]. rewrite (emptyCurrent_current Hch). reflexivity.
  - intros nd Hx. apply Hothers. apply in_or_app. right. exact Hx.
  - intros nd Hx. apply Hothers. apply in_or_app. left. exact Hx.
Qed.

(** Pops that neither select nor meet the empty current directory only
    advance the pop count. *)
Lemma fold_selStep_inert (P : list (Node * nat)) :
  forall acc,
    (forall nd, In nd P ->
                isSelected tr (fst nd) = false /\ emptyCurrent tr (fst nd) = false) ->
    fold_left (selStep tr) (map (fun nd => (Some (fst nd), snd nd)) P) acc
    = (fst acc + len P, snd acc).
Proof.
  induction P as [|nd P IH]; intros acc H.
  - cbn. unfold len. cbn. rewrite Z.add_0_r. destruct acc; reflexivity.
  - cbn [map fold_left]. rewrite IH.
    + destruct (H nd (or_introl eq_refl)) as [Hs He].
      unfold selStep. cbn [fst snd]. rewrite Hs, He. cbn [fst snd].
      unfold len. cbn [List.length]. f_equal. lia.
    + intros x Hx. apply H. right. exact Hx.
Qed.

(** With no nil pointer and nothing selected, the selected index
    followed along the pops ends at the placeholder's row. *)
Lemma selected_index_placeholder (before after : list (Node * nat)) (d : nat) :
  GetSelectedChild tr = None ->
  Children cd = Some [] ->
  (forall nd, In nd (before ++ after)%list -> addr (fst nd) <> addr cd) ->
  snd (fold_left (selStep tr)
         (map (fun nd => (Some (fst nd), snd nd)) (before ++ (cd, d) :: after))
         (-1, 0))
  = len before + 1.
Proof.
  intros Hsel Hch Hothers.
  assert (Hinert : forall P : list (Node * nat),
                   (forall nd, In nd P -> addr (fst nd) <> addr cd) ->
                   forall nd, In nd P ->
                   isSelected tr (fst nd) = false /\ emptyCurrent tr (fst nd) = false).
  { intros P HP nd Hx. split.
    - unfold isSelected. rewrite Hsel. reflexivity.
    - apply emptyCurrent_other. apply HP. exact Hx. }
  rewrite map_app, fold_left_app. cbn [map fold_left].
  rewrite (fold_selStep_inert before)
    by (apply Hinert; intros nd Hx; apply Hothers; apply in_or_app; left; exact Hx).
  rewrite (fold_selStep_inert after)
    by (apply Hinert; intros nd Hx; apply Hothers; apply in_or_app; right; exact Hx).
  unfold selStep. cbn [fst snd]. rewrite (emptyCurrent_current Hch).
  cbn [fst snd]. lia.
Qed.

End Placeholder.

(** In an empty current directory the accessor has no child to return. *)
Lemma empty_current_dir_no_selection (t : tree.Tree) (cd : tree.Node) :
  selectedIsChildOfCurrentDir t ->
  tree.CurrentDir t = Some cd -> tree.Children cd = Some [] ->
  tree.GetSelectedChild t = None.
Proof.
  intros Hinv Hcd Hch.
  destruct (tree.GetSelectedChild t) as [sel|] eqn:Hsel; [|reflexivity].
  destruct (Hinv sel Hsel) as (cd' & ch & Hcd' & Hch' & Hin).
  rewrite Hcd in Hcd'. injection Hcd' as <-.
  rewrite Hch in Hch'. injection Hch' as <-. contradiction.
Qed.

Lemma nth_error_placeholder_row (ext : Ext) (t : tree.Tree)
      (nodeLine : tree.Node -> nat -> result string)
      (before after : list (tree.Node * nat)) (own placeholder : string) :
  nth_error (nodeLines ext t nodeLine before ++ [own; placeholder]
               ++ nodeLines ext t nodeLine after)%list
            (Z.to_nat (len before + 1))
  = Some placeholder.
Proof.
  unfold len.
  replace (Z.to_nat (Z.of_nat (List.length before) + 1))
    with (List.length (nodeLines ext t nodeLine before) + 1)%nat
    by (unfold nodeLines; rewrite length_map; lia).
  rewrite nth_error_app2 by lia.
  replace (_ + 1 - _)%nat with 1%nat by lia. reflexivity.
Qed.

(** C3: for every tree in which the current directory is a visited node
    with zero (non-nil, empty) children, renderTree (in both packages)
    returns the lines of the nodes before it, its own line, exactly one
    placeholder line of depth+1 right after it, and the lines of the
    nodes after it.  The accessor returns the selected child of the
    current directory, which has none: the selection rests on the current
    directory itself, no node's line carries the marker, the placeholder
    carries it, and the selected index returned is the placeholder's row.
    Both sides of the claim's equivalence hold.  The visited nodes lie at
    distinct addresses and no child pointer is nil. *)
Theorem placeholder_after_empty_current_dir
        (ext : Ext) (t : tree.Tree) (widthLim : Z) (cd : tree.Node) (d : nat) :
  widthFits widthLim t ->
  distinctAddresses t ->
  noNilPointers t ->
  selectedIsChildOfCurrentDir t ->
  tree.CurrentDir t = Some cd ->
  tree.Children cd = Some [] ->
  In (cd, d) (preorderPtr 0 (tree.Root t)) ->
  currentDirIsSelectionTarget t /\
  (forall nd, In nd (preorderPtr 0 (tree.Root t)) -> isSelected t (fst nd) = false) /\
  placeholderSelected ext d (main.renderTree ext t) /\
  placeholderSelected ext d (ui.renderTree ext t widthLim) /\
  exists before after,
    preorderPtr 0 (tree.Root t) = (before ++ (cd, d) :: after)%list /\
    main.renderTree ext t
    = Ok ((nodeLines ext t (main.nodeLine ext) before
             ++ [lineText ext t (main.nodeLine ext) cd d;
                 (strings.Repeat "  " (d + 1) ++ "..." ++ YellowString ext " <-")%string]
             ++ nodeLines ext t (main.nodeLine ext) after)%list,
          len before + 1) /\
    ui.renderTree ext t widthLim
    = Ok ((nodeLines ext t (ui.nodeLine ext t widthLim) before
             ++ [lineText ext t (ui.nodeLine ext t widthLim) cd d;
                 (strings.Repeat "  " (d + 1) ++ "..." ++ YellowString ext " <-")%string]
             ++ nodeLines ext t (ui.nodeLine ext t widthLim) after)%list,
          len before + 1).
Proof.
  intros Hfit Hdistinct Hnil Hinv Hcd Hch Hin.
  pose proof (empty_current_dir_no_selection t cd Hinv Hcd Hch) as Hsel.
  destruct (flat_map_emit_split ext t (main.nodeLine ext) cd Hcd
              (preorderPtr 0 (tree.Root t)) d Hdistinct Hch Hin)
    as (before & after & Hsplit & Hothers & Hmain).
  assert (Hui : flat_map (emit ext t (ui.nodeLine ext t widthLim))
                         (preorderPtr 0 (tree.Root t))
                = (nodeLines ext t (ui.nodeLine ext t widthLim) before
                     ++ [lineText ext t (ui.nodeLine ext t widthLim) cd d;
                         placeholderLine ext d]
                     ++ nodeLines ext t (ui.nodeLine ext t widthLim) after)%list).
  { rewrite Hsplit, flat_map_app. cbn [flat_map].
    rewrite !(flat_map_emit_others ext t (ui.nodeLine ext t widthLim) cd Hcd).
    - unfold emit. cbn [fst snd].
      rewrite (emptyCurrent_current t cd Hcd Hch). reflexivity.
    - intros nd Hx. apply Hothers. apply in_or_app. right. exact Hx.
    - intros nd Hx. apply Hothers. apply in_or_app. left. exact Hx. }
  assert (Hcur : snd (fold_left (selStep t) (popsPtr 0 (tree.Root t)) (-1, 0))
                 = len before + 1).
  { rewrite Hnil, Hsplit.
    apply (selected_index_placeholder t cd Hcd before after d Hsel Hch Hothers). }
  assert (Emain : main.renderTree ext t
                  = Ok ((nodeLines ext t (main.nodeLine ext) before
                           ++ [lineText ext t (main.nodeLine ext) cd d;
                               placeholderLine ext d]
                           ++ nodeLines ext t (main.nodeLine ext) after)%list,
                        len before + 1))
    by (rewrite main_renderTree_spec, Hmain, Hcur; reflexivity).
  assert (Eui : ui.renderTree ext t widthLim
                = Ok ((nodeLines ext t (ui.nodeLine ext t widthLim) before
                         ++ [lineText ext t (ui.nodeLine ext t widthLim) cd d;
                             placeholderLine ext d]
                         ++ nodeLines ext t (ui.nodeLine ext t widthLim) after)%list,
                      len before + 1))
    by (rewrite (ui_renderTree_spec ext t widthLim Hfit), Hui, Hcur; reflexivity).
  split; [|split; [|split; [|split]]].
  - exists cd. split; [exact Hcd|].
    unfold selectionTarget. rewrite Hsel, Hcd. cbn [tree.ptrEq].
    apply N.eqb_refl.
  - intros nd _. unfold isSelected. rewrite Hsel. reflexivity.
  - eexists _, _. split; [exact Emain|]. apply nth_error_placeholder_row.
  - eexists _, _. split; [exact Eui|]. apply nth_error_placeholder_row.
  - exists before, after. split; [exact Hsplit|]. split; [exact Emain | exact Eui].
Qed.

Lemma placeholder_after_empty_current_dir_witness :
  currentDirIsSelectionTarget subTree /\
  (forall nd, In nd (preorderPtr 0 (tree.Root subTree)) ->
              isSelected subTree (fst nd) = false) /\
  placeholderSelected sampleExt 1 (main.renderTree sampleExt subTree) /\
  placeholderSelected sampleExt 1 (ui.renderTree sampleExt subTree 40) /\
  exists before after,
    preorderPtr 0 (tree.Root subTree) = (before ++ (subDir, 1%nat) :: after)%list /\
    main.renderTree sampleExt subTree
    = Ok ((nodeLines sampleExt subTree (main.nodeLine sampleExt) before
             ++ [lineText sampleExt subTree (main.nodeLine sampleExt) subDir 1;
                 ("    ..." ++ sgr "33" " <-")%string]
             ++ nodeLines sampleExt subTree (main.nodeLine sampleExt) after)%list,
          len before + 1) /\
    ui.renderTree sampleExt subTree 40
    = Ok ((nodeLines sampleExt subTree (ui.nodeLine sampleExt subTree 40) before
             ++ [lineText sampleExt subTree (ui.nodeLine sampleExt subTree 40) subDir 1;
                 ("    ..." ++ sgr "33" " <-")%string]
             ++ nodeLines sampleExt subTree (ui.nodeLine sampleExt subTree 40) after)%list,
          len before + 1).
Proof.
  assert (Hfit : widthFits 40 subTree).
  { split; [vm_compute; discriminate|].
    repeat constructor; vm_compute; discriminate. }
  assert (Hdistinct : distinctAddresses subTree).
  { unfold distinctAddresses. vm_compute.
    repeat constructor; cbn; intuition discriminate. }
  assert (Hinv : selectedIsChildOfCurrentDir subTree).
  { intros sel Hsel. discriminate Hsel. }
  assert (Hin : In (subDir, 1%nat) (preorderPtr 0 (tree.Root subTree))).
  { vm_compute. right. right. left. reflexivity. }
  exact (placeholder_after_empty_current_dir sampleExt subTree 40 subDir 1
           Hfit Hdistinct eq_refl Hinv eq_refl eq_refl Hin).
Defined.

(** ** Truncation to the width budget *)

(** A node that is neither a directory nor marked and does not fit the
    budget is cut to its first [max(0, widthLim - indent - 6)] runes,
    followed by three dots. *)
Lemma nodeLine_file_truncated (ext : Ext) (t : tree.Tree) (widthLim : Z)
      (node : tree.Node) (d : nat) :
  widthLim <= GoInt.max_int ->
  GoInt.min_int + 6 + 2 * Z.of_nat d <= widthLim ->
  tree.IsDir (tree.Info node) = false ->
  tree.ptrEq (tree.Marked t) node = false ->
  widthLim - 6
    < utf8.RuneCountInString (tree.Name (tree.Info node)) + 2 * Z.of_nat d ->
  ui.nodeLine ext t widthLim node d
  = Ok (strings.Repeat "  " d ++
        utf8.stringOfRunes
          (firstn (Z.to_nat (Z.max 0 (widthLim - 2 * Z.of_nat d - 6)))
                  (utf8.runes (tree.Name (tree.Info node)))) ++ "...").
Proof.
  intros Hmax Hmin Hdir Hmark Hlong. unfold ui.nodeLine.
  rewrite RuneCountInString_indent, Hdir, Hmark.
  assert (E1 : widthLim -i 6 = widthLim - 6) by (unwrap; reflexivity).
  assert (E2 : widthLim -i 2 * Z.of_nat d -i 6 = widthLim - 2 * Z.of_nat d - 6)
    by (unwrap; reflexivity).
  rewrite E1, E2.
  replace (widthLim - 6 <? _) with true by (symmetry; apply Z.ltb_lt; exact Hlong).
  unfold utf8.RuneCountInString in Hlong.
  pose proof (len_nonneg (utf8.runes (tree.Name (tree.Info node)))).
  rewrite slice_ok by lia. cbn [rbind skipn Z.to_nat].
  rewrite Z.sub_0_r. reflexivity.
Qed.

(** A directory's line carries its whole name, whatever the budget: the
    styled name is built from [node.Info.Name()] again. *)
Lemma nodeLine_directory_whole_name (ext : Ext) (t : tree.Tree) (widthLim : Z)
      (node : tree.Node) (d : nat) :
  widthLim <= GoInt.max_int ->
  GoInt.min_int + 6 + 2 * Z.of_nat d <= widthLim ->
  tree.IsDir (tree.Info node) = true ->
  tree.ptrEq (tree.Marked t) node = false ->
  ui.nodeLine ext t widthLim node d
  = Ok (strings.Repeat "  " d ++ BlueString ext (tree.Name (tree.Info node))).
Proof.
  intros Hmax Hmin Hdir Hmark.
  destruct (ui_nodeLine_ok ext t widthLim node d Hmax Hmin) as [txt Htxt].
  revert Htxt. unfold ui.nodeLine. rewrite Hdir, Hmark.
  destruct (if _ <? _ then _ else _) as [name| |]; cbn [rbind];
    intros Htxt; try discriminate. reflexivity.
Qed.

(** Truncation counts code points, not bytes. *)
Lemma nodeLine_truncates_whole_runes (ext : Ext) :
  ui.nodeLine ext longFileTree 10
     (file 10 "/repo/x" "日本語のファイル名" 1) 0
  = Ok "日本語の...".
Proof. vm_compute. reflexivity. Qed.

(** C4, at the failing input: a directory and a file both named
    "abcdefghijkl" (12 runes) at depth 0 under a width budget of 10.  The
    file's name is cut to its first four runes and three dots; the
    directory's line carries the whole name. *)
Theorem directory_name_not_truncated (ext : Ext) :
  ui.renderTree ext longDirTree 10 = Ok ([BlueString ext "abcdefghijkl"], 0) /\
  ui.renderTree ext longFileTree 10 = Ok (["abcd..."], 0) /\
  ui.nodeLine ext longDirTree 10 longDir 0 = Ok (BlueString ext "abcdefghijkl") /\
  ui.nodeLine ext longDirTree 10 longFile 0 = Ok "abcd...".
Proof. repeat split; vm_compute; reflexivity. Qed.

(** ** The scenarios of the specification *)

Example scenario_repo_lines :
  ui.renderTree sampleExt repoTree 40
  = Ok ([sgr "34" "/repo"; "  x.txt" ++ sgr "33" " <-"; "  " ++ sgr "34" "sub"], 1).
Proof. vm_compute. reflexivity. Qed.

Example scenario_sub_lines :
  ui.renderTree sampleExt subTree 40
  = Ok ([sgr "34" "/repo"; "  x.txt"; "  " ++ sgr "34" "sub";
         "    ..." ++ sgr "33" " <-"], 3).
Proof. vm_compute. reflexivity. Qed.

Example scenario_jump_to_line_10 :
  snd (cropTree (linesOfLength 20) 10 5 (mkRenderer 2 0)) = mkRenderer 2 8 /\
  nextOffset 20 10 5 2 0 = Z.min (10 + 1 - 5 + 2) (20 - 5).
Proof. split; vm_compute; reflexivity. Qed.

(** * The formatter, the crop and the renderers on all inputs *)

(** ** float64 operations on finite numbers *)

Lemma Prim2SF_1024 :
  Prim2SF 1024%float = S754_finite false 4503599627370496 (-42).
Proof. vm_compute. reflexivity. Qed.

Lemma valid_finite_digits (s : bool) (m : positive) (e : Z) :
  valid_binary (S754_finite s m e) = true ->
  -1074 < e ->
  Zpos (digits2_pos m) = 53 /\ e <= 971.
Proof.
  unfold valid_binary, bounded, canonical_mantissa, fexp, SpecFloat.emin.
  change prec with 53. change emax with 1024.
  intros H He. apply andb_prop in H. destruct H as [H1 H2].
  apply Z.eqb_eq in H1. apply Z.leb_le in H2. lia.
Qed.

Lemma SFdiv_1024 (m : positive) (e : Z) :
  Zpos (digits2_pos m) = 53 -> -42 <= e <= 971 ->
  SF64div (S754_finite false m e) (S754_finite false 4503599627370496 (-42))
  = S754_finite false m (e - 10).
Proof.
  intros Hd He. unfold SF64div, SFdiv, SFdiv_core_binary.
  cbn [Zdigits2]. rewrite Hd.
  change (Zpos (digits2_pos 4503599627370496)) with 53.
  unfold fexp, SpecFloat.emin. change prec with 53. change emax with 1024.
  replace (Z.min (Z.max (53 + e - (53 + -42) - 53) (3 - 1024 - 53)) (e - -42))
    with (e - 11) by lia.
  replace (e - -42 - (e - 11)) with 53 by lia.
  assert (Hdiv : IntDef.Z.div_eucl (IntDef.Z.shiftl (Z.pos m) 53) 4503599627370496
                 = (Z.pos m~0, 0)).
  { change (IntDef.Z.shiftl (Z.pos m) 53) with (Z.shiftl (Z.pos m) 53).
    rewrite Z.shiftl_mul_pow2 by lia.
    change (IntDef.Z.div_eucl ?a ?b) with (Z.div_eucl a b).
    pose proof (Z.div_eucl_eq (Z.pos m * 2 ^ 53) 4503599627370496 ltac:(lia)) as E.
    pose proof (Z.mod_pos_bound (Z.pos m * 2 ^ 53) 4503599627370496 ltac:(lia)) as B.
    unfold Z.modulo in B.
    destruct (Z.div_eucl (Z.pos m * 2 ^ 53) 4503599627370496) as [q r].
    assert (q = Z.pos m~0 /\ r = 0) as [-> ->]; [|reflexivity].
    change (2 ^ 53) with (2 * 4503599627370496) in E.
    change (Z.pos m~0) with (2 * Z.pos m). nia. }
  rewrite Hdiv. cbn [xorb].
  change (new_location 4503599627370496 0) with loc_Exact.
  unfold binary_round_aux, shr_fexp.
  cbn [Zdigits2 digits2_pos].
  rewrite Pos2Z.inj_succ, Hd.
  unfold fexp, SpecFloat.emin.
  replace (Z.max (Z.succ 53 + (e - 11) - 53) (3 - 1024 - 53) - (e - 11)) with 1 by lia.
  cbn [shr_record_of_loc shr iter_pos shr_1 shr_m loc_of_shr_record round_nearest_even].
  cbn [orb]. cbn [round_nearest_even Zdigits2]. rewrite Hd.
  replace (Z.max (53 + (e - 11 + 1) - 53) (3 - 1024 - 53) - (e - 11 + 1)) with 0 by lia.
  cbn [shr_record_of_loc shr shr_m].
  replace (e - 11 + 1 <=? 1024 - 53) with true by (symmetry; apply Z.leb_le; lia).
  f_equal. lia.
Qed.

Lemma SFleb_1024 (m : positive) (e : Z) :
  SFleb (S754_finite false 4503599627370496 (-42)) (S754_finite false m e) = true ->
  -42 <= e.
Proof.
  unfold SFleb, SFcompare. destruct (-42 ?= e) eqn:E; try discriminate; intros _.
  - apply Z.compare_eq in E. lia.
  - change (-42 < e) in E. lia.
Qed.

(** The unit loop on a positive finite float below 2^70. *)
Lemma sizeLoop_finite (fuel : nat) :
  forall (s : float) (i : Z) (m : positive) (e : Z),
    Prim2SF s = S754_finite false m e ->
    e + 10 * i <= 17 -> 0 <= i <= 6 ->
    (Z.to_nat (7 - i) <= fuel)%nat ->
    exists s' i', ui.sizeLoop fuel s 1024%float i 7 = Ok (s', i') /\ 0 <= i' <= 6.
Proof.
  induction fuel as [|fuel IH]; intros s i m e Hs He Hi Hf; [lia|].
  cbn [ui.sizeLoop]. rewrite leb_spec, Hs, Prim2SF_1024.
  destruct (SFleb _ _) eqn:Hle; cbn [andb].
  - apply SFleb_1024 in Hle.
    pose proof (Prim2SF_valid s) as Hv. rewrite Hs in Hv.
    destruct (valid_finite_digits false m e Hv ltac:(lia)) as [Hd Hmax].
    replace (i <? 7) with true by (symmetry; apply Z.ltb_lt; lia).
    apply (IH (s / 1024)%float (i + 1) m (e - 10)); try lia.
    rewrite div_spec, Hs, Prim2SF_1024. apply SFdiv_1024; [exact Hd | lia].
  - eexists _, _. split; [reflexivity | exact Hi].
Qed.

(** ** Digits *)

Lemma digits2_bounds (p : positive) :
  2 ^ (Zpos (digits2_pos p) - 1) <= Zpos p < 2 ^ Zpos (digits2_pos p).
Proof.
  induction p as [p IH|p IH|]; cbn [digits2_pos].
  - rewrite Pos2Z.inj_succ.
    replace (Z.succ (Zpos (digits2_pos p)) - 1) with (Z.succ (Zpos (digits2_pos p) - 1)) by lia.
    rewrite !Z.pow_succ_r by lia. lia.
  - rewrite Pos2Z.inj_succ.
    replace (Z.succ (Zpos (digits2_pos p)) - 1) with (Z.succ (Zpos (digits2_pos p) - 1)) by lia.
    rewrite !Z.pow_succ_r by lia. lia.
  - cbn. lia.
Qed.

Lemma digits2_le (p : positive) (k : Z) :
  0 <= k -> Zpos p < 2 ^ k -> Zpos (digits2_pos p) <= k.
Proof.
  intros Hk Hp. destruct (digits2_bounds p) as [Hlo _].
  destruct (Z_le_gt_dec (Zpos (digits2_pos p)) k) as [H|H]; [exact H|].
  exfalso.
  assert (2 ^ k <= 2 ^ (Zpos (digits2_pos p) - 1)) by (apply Z.pow_le_mono_r; lia).
  lia.
Qed.

Lemma digits2_iter_xO (p d : positive) :
  Zpos (digits2_pos (Pos.iter xO p d)) = Zpos (digits2_pos p) + Zpos d.
Proof.
  induction d as [|d IH] using Pos.peano_ind.
  - cbn [Pos.iter digits2_pos]. lia.
  - rewrite Pos.iter_succ. cbn [digits2_pos]. lia.
Qed.

(** ** Shifting right *)

Lemma shr_1_half (mrs : shr_record) :
  0 <= shr_m mrs -> shr_m (shr_1 mrs) = shr_m mrs / 2.
Proof.
  destruct mrs as [m r s]. cbn [shr_m]. intros Hm.
  rewrite <- Z.div2_div.
  destruct m as [|[q|q|]|q]; cbn [shr_1 shr_m]; try reflexivity; lia.
Qed.

Lemma iter_shr_1 (k : positive) :
  forall mrs, 0 <= shr_m mrs ->
              shr_m (iter_pos shr_1 k mrs) = shr_m mrs / 2 ^ Zpos k.
Proof.
  induction k as [k IH|k IH|]; intros mrs Hm; cbn [iter_pos].
  - assert (E : 2 ^ Zpos k~1 = 2 * 2 ^ Zpos k * 2 ^ Zpos k).
    { rewrite Pos2Z.inj_xI.
      replace (2 * Zpos k + 1) with (1 + Zpos k + Zpos k) by lia.
      rewrite !Z.pow_add_r by lia. reflexivity. }
    assert (H1 : 0 <= shr_m (shr_1 mrs))
      by (rewrite shr_1_half by exact Hm; apply Z.div_pos; lia).
    assert (H2 : 0 <= shr_m (iter_pos shr_1 k (shr_1 mrs)))
      by (rewrite IH by exact H1; apply Z.div_pos; lia).
    rewrite IH by exact H2. rewrite IH by exact H1. rewrite shr_1_half by exact Hm.
    rewrite E, !Z.div_div by lia. f_equal. lia.
  - assert (E : 2 ^ Zpos k~0 = 2 ^ Zpos k * 2 ^ Zpos k).
    { replace (Zpos k~0) with (Zpos k + Zpos k) by lia.
      apply Z.pow_add_r; lia. }
    assert (H1 : 0 <= shr_m (iter_pos shr_1 k mrs))
      by (rewrite IH by exact Hm; apply Z.div_pos; lia).
    rewrite IH by exact H1. rewrite IH by exact Hm.
    rewrite E, Z.div_div by lia. reflexivity.
  - rewrite shr_1_half by exact Hm. reflexivity.
Qed.

Lemma shr_snd (mrs : shr_record) (e n : Z) :
  snd (shr mrs e n) = e + Z.max 0 n.
Proof. destruct n; cbn [shr snd]; lia. Qed.

Lemma shr_fst_m (mrs : shr_record) (e n : Z) :
  0 <= shr_m mrs ->
  shr_m (fst (shr mrs e n)) = shr_m mrs / 2 ^ Z.max 0 n.
Proof.
  intros Hm. destruct n as [|k|k]; cbn [shr fst].
  - cbn. rewrite Z.div_1_r. reflexivity.
  - rewrite iter_shr_1 by exact Hm. reflexivity.
  - cbn. rewrite Z.div_1_r. reflexivity.
Qed.

Lemma Zdigits2_le (m k : Z) :
  0 <= k -> 0 <= m < 2 ^ k -> Zdigits2 m <= k.
Proof.
  intros Hk Hm. destruct m as [|p|p]; cbn [Zdigits2]; [lia | | lia].
  apply digits2_le; lia.
Qed.

Lemma round_nearest_even_bounds (m : Z) (l : location) :
  m <= round_nearest_even m l <= m + 1.
Proof.
  destruct l as [|[| |]]; cbn [round_nearest_even]; try lia.
  destruct (Z.even m); lia.
Qed.

Lemma binary_round_aux_small (mz : positive) (ez : Z) :
  -1074 <= ez <= 10 ->
  Zpos (digits2_pos mz) + ez <= 63 ->
  smallPositive (binary_round_aux prec emax false (Zpos mz) ez loc_Exact).
Proof.
  intros Hez Hd.
  pose proof (digits2_bounds mz) as [_ Hmz].
  assert (Hdpos : 0 < Zpos (digits2_pos mz)) by lia.
  unfold binary_round_aux, shr_fexp.
  cbn [Zdigits2 shr_record_of_loc].
  set (mrs0 := {| shr_m := Zpos mz; shr_r := false; shr_s := false |}).
  set (n1 := fexp prec emax (Zpos (digits2_pos mz) + ez) - ez).
  pose proof (shr_snd mrs0 ez n1) as He'.
  pose proof (shr_fst_m mrs0 ez n1 ltac:(cbn; lia)) as Hm'.
  destruct (shr mrs0 ez n1) as [mrs' e']. cbn [fst snd] in He', Hm'.
  subst mrs0. cbn [shr_m] in Hm'.
  assert (Hn1 : Z.max 0 n1 = Z.max 0 (Zpos (digits2_pos mz) - 53)).
  { unfold n1, fexp, SpecFloat.emin. change prec with 53. change emax with 1024. lia. }
  rewrite Hn1 in He', Hm'.
  set (N := Z.max 0 (Zpos (digits2_pos mz) - 53)) in *.
  assert (HN : 0 <= N) by (unfold N; lia).
  assert (He'10 : e' <= 10) by (unfold N in *; lia).
  assert (Hm'b : 0 <= shr_m mrs' < 2 ^ (63 - e')).
  { assert (HpN : 0 < 2 ^ N) by (apply Z.pow_pos_nonneg; lia).
    rewrite Hm'. split; [apply Z.div_pos; lia|].
    apply Z.div_lt_upper_bound; [lia|].
    rewrite <- Z.pow_add_r by lia.
    apply Z.lt_le_trans with (1 := Hmz).
    apply Z.pow_le_mono_r; lia. }
  set (m1 := round_nearest_even (shr_m mrs') (loc_of_shr_record mrs')).
  pose proof (round_nearest_even_bounds (shr_m mrs') (loc_of_shr_record mrs')) as Hm1.
  fold m1 in Hm1.
  assert (Hd1 : Zdigits2 m1 <= 64 - e').
  { apply Zdigits2_le; [lia|]. split; [lia|].
    replace (64 - e') with (Z.succ (63 - e')) by lia.
    rewrite Z.pow_succ_r by lia. lia. }
  set (n2 := fexp prec emax (Zdigits2 m1 + e') - e').
  pose proof (shr_snd {| shr_m := m1; shr_r := false; shr_s := false |} e' n2)
    as He''.
  destruct (shr {| shr_m := m1; shr_r := false; shr_s := false |} e' n2)
    as [mrs'' e''].
  cbn [snd] in He''.
  assert (He''11 : e'' <= 11).
  { unfold n2, fexp, SpecFloat.emin in He''.
    change prec with 53 in He''. change emax with 1024 in He''. lia. }
  unfold smallPositive.
  destruct (shr_m mrs'') as [|p|p]; [left; reflexivity | | right; left; reflexivity].
  change (emax - prec) with 971.
  replace (e'' <=? 971) with true by (symmetry; apply Z.leb_le; lia).
  right. right. exists p, e''. split; [reflexivity | exact He''11].
Qed.

Lemma binary_round_small (p : positive) :
  Zpos p < 2 ^ 63 ->
  smallPositive (binary_round prec emax false p 0).
Proof.
  intros Hp.
  assert (Hd : Zpos (digits2_pos p) <= 63) by (apply digits2_le; lia).
  unfold binary_round, shl_align.
  unfold fexp, SpecFloat.emin. change prec with 53. change emax with 1024.
  destruct (Z.max (Zpos (digits2_pos p) + 0 - 53) (3 - 1024 - 53) - 0) as [|k|k] eqn:E.
  - apply binary_round_aux_small; lia.
  - apply binary_round_aux_small; lia.
  - apply binary_round_aux_small; [lia|].
    rewrite digits2_iter_xO. lia.
Qed.

(** ** float64 of an integer *)

Lemma Prim2SF_ofInt_pos (p : positive) :
  Zpos p < 2 ^ 63 ->
  Prim2SF (float64.ofInt (Zpos p)) = binary_round prec emax false p 0.
Proof.
  intros Hp. unfold float64.ofInt. cbn [binary_normalize].
  pose proof (of_uint63_spec (Uint63.of_Z (Zpos p))) as H.
  rewrite Uint63.of_Z_spec in H.
  rewrite Z.mod_small in H by (change Uint63.wB with (2 ^ 63); lia).
  cbn [binary_normalize] in H.
  rewrite <- H, SF2Prim_Prim2SF. reflexivity.
Qed.

Lemma binary_round_opp (p : positive) (e : Z) :
  binary_round prec emax true p e = SFopp (binary_round prec emax false p e).
Proof.
  unfold binary_round. destruct (shl_align _ _ _) as [mz ez].
  unfold binary_round_aux. destruct (shr_fexp _ _ _ _ _) as [mrs' e'].
  destruct (shr_fexp _ _ _ _ _) as [mrs'' e''].
  destruct (shr_m mrs''); [reflexivity | | reflexivity].
  destruct (e'' <=? emax - prec); reflexivity.
Qed.

Lemma Prim2SF_ofInt_neg (p : positive) :
  Zpos p < 2 ^ 63 ->
  Prim2SF (float64.ofInt (Zneg p)) = SFopp (binary_round prec emax false p 0).
Proof.
  intros Hp. unfold float64.ofInt. cbn [binary_normalize].
  rewrite binary_round_opp, <- (Prim2SF_ofInt_pos p Hp), <- opp_spec.
  rewrite SF2Prim_Prim2SF. reflexivity.
Qed.

Lemma SFleb_1024_notPositive (x : spec_float) :
  notPositive x ->
  SFleb (S754_finite false 4503599627370496 (-42)) x = false.
Proof.
  destruct x as [s|s| |s m e]; cbn; intros H; try subst s; reflexivity.
Qed.

(** ** The size formatter on every float *)

Lemma formatSize_below_base (s base : float) :
  (base <=? s)%float = false ->
  ui.formatSize s base = Ok (float64.formatFixed 0 s ++ " b")%string.
Proof.
  intros H. unfold ui.formatSize.
  change (Z.to_nat (len ui.sizes)) with 7%nat.
  cbn [ui.sizeLoop]. rewrite H. reflexivity.
Qed.

Lemma formatSize_of_loop (s base s' : float) (i' : Z) :
  ui.sizeLoop 7 s base 0 7 = Ok (s', i') -> 0 <= i' <= 6 ->
  exists str, ui.formatSize s base = Ok str.
Proof.
  intros Hloop Hi. unfold ui.formatSize.
  change (Z.to_nat (len ui.sizes)) with 7%nat. change (len ui.sizes) with 7.
  rewrite Hloop. cbn [rbind].
  destruct (nth_error ui.sizes (Z.to_nat i')) as [u|] eqn:E.
  - eexists. reflexivity.
  - apply nth_error_None in E. cbn in E. lia.
Qed.

Lemma formatSize_finite_small (s : float) (m : positive) (e : Z) :
  Prim2SF s = S754_finite false m e -> e <= 17 ->
  exists str, ui.formatSize s 1024%float = Ok str.
Proof.
  intros Hs He.
  destruct (sizeLoop_finite 7 s 0 m e Hs ltac:(lia) ltac:(lia) ltac:(cbn; lia))
    as (s' & i' & Hloop & Hi).
  apply (formatSize_of_loop s 1024%float s' i' Hloop Hi).
Qed.

Lemma formatSize_notPositive (s : float) :
  notPositive (Prim2SF s) ->
  ui.formatSize s 1024%float = Ok (float64.formatFixed 0 s ++ " b")%string.
Proof.
  intros H. apply formatSize_below_base.
  rewrite leb_spec, Prim2SF_1024. apply SFleb_1024_notPositive. exact H.
Qed.

(** The float of an int64 lies below 2^64 < 2^70. *)
Lemma formatSize_ofInt_ok (z : Z) :
  GoInt.in_int z -> exists str, ui.formatSize (float64.ofInt z) 1024%float = Ok str.
Proof.
  unfold GoInt.in_int, GoInt.min_int, GoInt.max_int. intros Hz.
  destruct z as [|p|p].
  - eexists. vm_compute. reflexivity.
  - assert (Hp : Zpos p < 2 ^ 63) by lia.
    pose proof (Prim2SF_ofInt_pos p Hp) as E.
    destruct (binary_round_small p Hp) as [H|[H|(m & e & H & He)]].
    + eexists. apply formatSize_notPositive. rewrite E, H. exact I.
    + eexists. apply formatSize_notPositive. rewrite E, H. exact I.
    + apply (formatSize_finite_small _ m e); [rewrite E; exact H | lia].
  - destruct (Z.eq_dec (Zneg p) (- 2 ^ 63)) as [Hmin|Hmin].
    + rewrite Hmin. eexists. vm_compute. reflexivity.
    + assert (Hp : Zpos p < 2 ^ 63) by lia.
      pose proof (Prim2SF_ofInt_neg p Hp) as E.
      eexists. apply formatSize_notPositive. rewrite E.
      destruct (binary_round_small p Hp) as [H|[H|(m & e & H & He)]];
        rewrite H; cbn; reflexivity.
Qed.

(** X1: the size of every file prints: on the float of an int64 the
    formatter returns a string, it never indexes past the unit table. *)
Theorem formatSize_int64 (z : Z) :
  GoInt.in_int z ->
  exists str, ui.formatSize (float64.ofInt z) 1024%float = Ok str.
Proof. exact (formatSize_ofInt_ok z). Qed.

Lemma formatSize_int64_witness :
  exists str, ui.formatSize (float64.ofInt 2048) 1024%float = Ok str.
Proof.
  apply (formatSize_int64 2048).
  unfold GoInt.in_int, GoInt.min_int, GoInt.max_int. lia.
Defined.

(** ** Where the unit index leaves the table *)

Lemma Prim2SF_2p70 :
  Prim2SF 0x1p70%float = S754_finite false 4503599627370496 18.
Proof. vm_compute. reflexivity. Qed.

Lemma SFleb_normal (m : positive) (e e0 : Z) :
  Zpos (digits2_pos m) = 53 ->
  SFleb (S754_finite false 4503599627370496 e0) (S754_finite false m e)
  = (e0 <=? e).
Proof.
  intros Hd. unfold SFleb, SFcompare.
  destruct (Z.compare_spec e0 e) as [E|E|E].
  - subst e0. rewrite Z.leb_refl.
    pose proof (digits2_bounds m) as [Hlo _]. rewrite Hd in Hlo.
    change (2 ^ (53 - 1)) with (Zpos 4503599627370496) in Hlo.
    change (Pos.compare_cont Eq 4503599627370496 m)
      with (4503599627370496 ?= m)%positive.
    destruct (Pos.compare_spec 4503599627370496 m) as [C|C|C]; try reflexivity.
    apply Pos2Z.pos_lt_pos in C. lia.
  - symmetry. transitivity true; [apply Z.leb_le; lia | reflexivity].
  - symmetry. apply Z.leb_gt. lia.
Qed.

Lemma sizeLoop_large (fuel : nat) :
  forall (s : float) (i : Z) (m : positive) (e : Z),
    Prim2SF s = S754_finite false m e ->
    18 <= e + 10 * i -> 0 <= i <= 7 ->
    (Z.to_nat (7 - i) <= fuel)%nat ->
    exists s', ui.sizeLoop fuel s 1024%float i 7 = Ok (s', 7).
Proof.
  induction fuel as [|fuel IH]; intros s i m e Hs He Hi Hf.
  - assert (i = 7) by lia. subst i. cbn [ui.sizeLoop].
    rewrite andb_false_r. eexists. reflexivity.
  - cbn [ui.sizeLoop].
    destruct (Z.eq_dec i 7) as [->|Hne].
    + rewrite andb_false_r. eexists. reflexivity.
    + pose proof (Prim2SF_valid s) as Hv. rewrite Hs in Hv.
      destruct (valid_finite_digits false m e Hv ltac:(lia)) as [Hd Hmax].
      rewrite FloatAxioms.leb_spec, Hs, Prim2SF_1024, (SFleb_normal m e (-42) Hd).
      replace (-42 <=? e) with true by (symmetry; apply Z.leb_le; lia).
      replace (i <? 7) with true by (symmetry; apply Z.ltb_lt; lia).
      cbn [andb].
      apply (IH (s / 1024)%float (i + 1) m (e - 10)); try lia.
      rewrite FloatAxioms.div_spec, Hs, Prim2SF_1024.
      apply SFdiv_1024; [exact Hd | lia].
Qed.

Lemma sizeLoop_infinity (fuel : nat) :
  forall (s : float) (i : Z),
    Prim2SF s = S754_infinity false ->
    0 <= i <= 7 -> (Z.to_nat (7 - i) <= fuel)%nat ->
    exists s', ui.sizeLoop fuel s 1024%float i 7 = Ok (s', 7).
Proof.
  induction fuel as [|fuel IH]; intros s i Hs Hi Hf.
  - assert (i = 7) by lia. subst i. cbn [ui.sizeLoop].
    rewrite andb_false_r. eexists. reflexivity.
  - cbn [ui.sizeLoop].
    destruct (Z.eq_dec i 7) as [->|Hne].
    + rewrite andb_false_r. eexists. reflexivity.
    + rewrite FloatAxioms.leb_spec, Hs, Prim2SF_1024.
      replace (i <? 7) with true by (symmetry; apply Z.ltb_lt; lia).
      cbn [SFleb SFcompare andb].
      apply (IH (s / 1024)%float (i + 1)); try lia.
      rewrite FloatAxioms.div_spec, Hs, Prim2SF_1024. reflexivity.
Qed.

Lemma formatSize_of_loop_7 (s s' : float) :
  ui.sizeLoop 7 s 1024%float 0 7 = Ok (s', 7) ->
  ui.formatSize s 1024%float = Panic.
Proof.
  intros Hloop. unfold ui.formatSize.
  change (Z.to_nat (len ui.sizes)) with 7%nat. change (len ui.sizes) with 7.
  rewrite Hloop. reflexivity.
Qed.

(** X2: with base 1024 the formatter panics exactly on the floats from
    2^70 up (positive infinity included): seven divisions leave the unit
    index at 7, past the table.  Below 2^70, and on NaN, it returns. *)
Theorem formatSize_panics_from_2p70 (s : float) :
  ui.formatSize s 1024%float = Panic <-> (0x1p70 <=? s)%float = true.
Proof.
  rewrite FloatAxioms.leb_spec, Prim2SF_2p70.
  pose proof (Prim2SF_valid s) as Hv.
  destruct (Prim2SF s) as [sg|sg| |sg m e] eqn:Hs.
  - rewrite formatSize_notPositive by (rewrite Hs; exact I).
    split; [discriminate | intros H; cbn [SFleb SFcompare] in H; discriminate H].
  - destruct sg.
    + rewrite formatSize_notPositive by (rewrite Hs; reflexivity).
      split; [discriminate | intros H; cbn [SFleb SFcompare] in H; discriminate H].
    + destruct (sizeLoop_infinity 7 s 0 Hs ltac:(lia) ltac:(cbn; lia)) as [s' H].
      rewrite (formatSize_of_loop_7 s s' H). split; reflexivity.
  - rewrite formatSize_notPositive by (rewrite Hs; exact I).
    split; [discriminate | intros H; cbn [SFleb SFcompare] in H; discriminate H].
  - destruct sg.
    + rewrite formatSize_notPositive by (rewrite Hs; reflexivity).
      split; [discriminate | intros H; cbn [SFleb SFcompare] in H; discriminate H].
    + destruct (Z_le_gt_dec e 17) as [He|He].
      * destruct (formatSize_finite_small s m e Hs He) as [str ->].
        unfold SFleb, SFcompare.
        replace (18 ?= e) with Gt by (symmetry; apply Z.compare_gt_iff; lia).
        split; discriminate.
      * destruct (valid_finite_digits false m e Hv ltac:(lia)) as [Hd Hmax].
        destruct (sizeLoop_large 7 s 0 m e Hs ltac:(lia) ltac:(lia) ltac:(cbn; lia))
          as [s' H].
        rewrite (formatSize_of_loop_7 s s' H), (SFleb_normal m e 18 Hd).
        replace (18 <=? e) with true by (symmetry; apply Z.leb_le; lia).
        split; reflexivity.
Qed.

(** ** The crop for a window of positive height *)

(** The crop for a window of positive height, in one equation. *)
Lemma cropTree_positive_height {A} (lines : list A) (cl H : Z) (r : Renderer) :
  0 < H -> small H -> small cl -> small (EdgePadding r) ->
  small (offsetMem r) -> small (len lines) ->
  cropTree lines cl H r =
  (slice lines (nextOffset (len lines) cl H (EdgePadding r) (offsetMem r))
         (Z.min (H + nextOffset (len lines) cl H (EdgePadding r) (offsetMem r))
                (len lines)),
   mkRenderer (EdgePadding r)
              (nextOffset (len lines) cl H (EdgePadding r) (offsetMem r))).
Proof.
  intros HH H1 H2 H3 H4 H5.
  pose proof (cropTree_offset lines cl H r HH H1 H2 H3 H4 H5) as Hoff.
  revert Hoff. unfold cropTree, bind, getR, setOffsetMem, lift.
  replace (0 <? H) with true by (symmetry; apply Z.ltb_lt; lia).
  cbv zeta. cbn [fst snd offsetMem].
  set (o' := if _ <? _ then Z.max _ 0 else _).
  intros Hoff. rewrite Hoff.
  set (n := nextOffset _ _ _ _ _) in *.
  assert (Hw : H +i n = H + n).
  { unfold n, nextOffset, small in *. unfold GoInt.add.
    apply wrap_id. unfold GoInt.in_int, GoInt.min_int, GoInt.max_int.
    case_ltb; lia. }
  rewrite Hw. reflexivity.
Qed.

Lemma nth_error_slice {A} (l : list A) (lo n i : nat) :
  (i < n)%nat ->
  nth_error (firstn n (skipn lo l)) i = nth_error l (lo + i).
Proof.
  intros Hi. rewrite nth_error_firstn.
  replace (i <? n)%nat with true by (symmetry; apply Nat.ltb_lt; exact Hi).
  apply nth_error_skipn.
Qed.

(** X3: a list that fills the window, cropped from an offset the invariant
    allows: exactly [H] consecutive lines starting at the new offset, and
    the new offset is again within [0, N - H]. *)
Theorem cropTree_window {A} (lines : list A) (cl H : Z) (r : Renderer) :
  0 < H <= len lines -> 0 <= offsetMem r <= len lines - H ->
  small cl -> small (EdgePadding r) -> small (len lines) ->
  exists o',
    cropTree lines cl H r
    = (Ok (firstn (Z.to_nat H) (skipn (Z.to_nat o') lines)),
       mkRenderer (EdgePadding r) o') /\
    0 <= o' <= len lines - H /\
    List.length (firstn (Z.to_nat H) (skipn (Z.to_nat o') lines)) = Z.to_nat H.
Proof.
  intros HN Ho H2 H3 H5.
  assert (H1 : small H) by (unfold small in *; lia).
  assert (H4 : small (offsetMem r)) by (unfold small in *; lia).
  pose proof (nextOffset_in_range (len lines) cl H (EdgePadding r) (offsetMem r)
                HN Ho) as Hrange.
  rewrite (cropTree_positive_height lines cl H r ltac:(lia) H1 H2 H3 H4 H5).
  set (n := nextOffset _ _ _ _ _) in *. exists n.
  rewrite Z.min_l by lia. rewrite slice_ok by lia.
  replace (H + n - n) with H by lia.
  split; [reflexivity|]. split; [exact Hrange|].
  rewrite length_firstn, length_skipn. unfold len in *. lia.
Qed.

Lemma cropTree_window_witness :
  exists o',
    cropTree (linesOfLength 20) 12 10 (mkRenderer 5 0)
    = (Ok (firstn 10 (skipn (Z.to_nat o') (linesOfLength 20))), mkRenderer 5 o') /\
    0 <= o' <= 20 - 10 /\
    List.length (firstn 10 (skipn (Z.to_nat o') (linesOfLength 20))) = 10%nat.
Proof.
  apply (cropTree_window (linesOfLength 20) 12 10 (mkRenderer 5 0));
    unfold small, len; cbn; lia.
Defined.

(** X4: the selected line is inside the returned window, at row
    [currentLine - offset]. *)
Theorem cropTree_selection_visible {A} (lines : list A) (cl H : Z) (r : Renderer) :
  0 < H <= len lines -> 0 <= offsetMem r <= len lines - H ->
  0 <= cl < len lines -> 0 <= EdgePadding r < H -> small (len lines) ->
  exists out o',
    cropTree lines cl H r = (Ok out, mkRenderer (EdgePadding r) o') /\
    o' <= cl < o' + H /\
    nth_error out (Z.to_nat (cl - o')) = nth_error lines (Z.to_nat cl).
Proof.
  intros HN Ho Hcl HP H5.
  assert (H1 : small H) by (unfold small in *; lia).
  assert (H2 : small cl) by (unfold small in *; lia).
  assert (H3 : small (EdgePadding r)) by (unfold small in *; lia).
  assert (H4 : small (offsetMem r)) by (unfold small in *; lia).
  pose proof (nextOffset_in_range (len lines) cl H (EdgePadding r) (offsetMem r)
                HN Ho) as Hrange.
  rewrite (cropTree_positive_height lines cl H r ltac:(lia) H1 H2 H3 H4 H5).
  assert (Hvis : nextOffset (len lines) cl H (EdgePadding r) (offsetMem r) <= cl
                 < nextOffset (len lines) cl H (EdgePadding r) (offsetMem r) + H).
  { unfold nextOffset. case_ltb; lia. }
  set (n := nextOffset _ _ _ _ _) in *.
  rewrite Z.min_l by lia. rewrite slice_ok by lia.
  eexists _, n. split; [reflexivity|]. split; [exact Hvis|].
  rewrite nth_error_slice by lia. f_equal. lia.
Qed.

Lemma cropTree_selection_visible_witness :
  exists out o',
    cropTree sevenLines 6 4 (mkRenderer 1 0) = (Ok out, mkRenderer 1 o') /\
    o' <= 6 < o' + 4 /\
    nth_error out (Z.to_nat (6 - o')) = nth_error sevenLines 6.
Proof.
  apply (cropTree_selection_visible sevenLines 6 4 (mkRenderer 1 0));
    unfold small, len; cbn; lia.
Defined.

(** X5: the padding is kept on both sides unless the window is at the
    start, respectively the end, of the list. *)
Theorem cropTree_edge_padding {A} (lines : list A) (cl H : Z) (r : Renderer) :
  0 < H <= len lines -> 0 <= offsetMem r <= len lines - H ->
  0 <= cl < len lines -> 0 <= EdgePadding r -> 2 * EdgePadding r < H ->
  small (len lines) ->
  let o' := offsetMem (snd (cropTree lines cl H r)) in
  (o' = 0 \/ o' + EdgePadding r <= cl) /\
  (o' = len lines - H \/ cl + EdgePadding r < o' + H).
Proof.
  intros HN Ho Hcl HP HP2 H5.
  assert (H1 : small H) by (unfold small in *; lia).
  assert (H2 : small cl) by (unfold small in *; lia).
  assert (H3 : small (EdgePadding r)) by (unfold small in *; lia).
  assert (H4 : small (offsetMem r)) by (unfold small in *; lia).
  rewrite (cropTree_positive_height lines cl H r ltac:(lia) H1 H2 H3 H4 H5).
  cbn [snd offsetMem]. unfold nextOffset. case_ltb; lia.
Qed.

Lemma cropTree_edge_padding_witness :
  let o' := offsetMem (snd (cropTree (linesOfLength 20) 12 10 (mkRenderer 2 0))) in
  (o' = 0 \/ o' + 2 <= 12) /\ (o' = 20 - 10 \/ 12 + 2 < o' + 10).
Proof.
  apply (cropTree_edge_padding (linesOfLength 20) 12 10 (mkRenderer 2 0));
    unfold small, len; cbn; lia.
Defined.

(** X6: while the selection stays at least the padding away from both
    edges of the window, the renderer is left as it was. *)
Theorem cropTree_sticky {A} (lines : list A) (cl H : Z) (r : Renderer) :
  0 < H -> small H -> small cl -> small (EdgePadding r) ->
  small (offsetMem r) -> small (len lines) ->
  EdgePadding r + offsetMem r <= cl ->
  cl + 1 <= H + offsetMem r - EdgePadding r ->
  snd (cropTree lines cl H r) = r.
Proof.
  intros HH H1 H2 H3 H4 H5 Htop Hbottom.
  rewrite (cropTree_positive_height lines cl H r HH H1 H2 H3 H4 H5).
  cbn [snd]. destruct r as [P o]. cbn [EdgePadding offsetMem] in *.
  f_equal. unfold nextOffset. case_ltb; lia.
Qed.

Lemma cropTree_sticky_witness :
  snd (cropTree (linesOfLength 20) 6 10 (mkRenderer 2 3)) = mkRenderer 2 3.
Proof.
  apply (cropTree_sticky (linesOfLength 20) 6 10 (mkRenderer 2 3));
    unfold small, len; cbn; lia.
Defined.

(** A short list above the bottom padding: nothing to crop. *)
Lemma cropTree_whole {A} (lines : list A) (cl H : Z) (r : Renderer) :
  0 < H -> len lines <= H -> small H ->
  offsetMem r = 0 -> 0 <= EdgePadding r ->
  0 <= cl -> cl + 1 <= H - EdgePadding r ->
  cropTree lines cl H r = (Ok lines, r).
Proof.
  intros HH HN H1 Ho HP Hcl Hbottom.
  pose proof (len_nonneg lines) as Hlen.
  assert (H2 : small cl) by (unfold small in *; lia).
  assert (H3 : small (EdgePadding r)) by (unfold small in *; lia).
  assert (H4 : small (offsetMem r)) by (unfold small in *; lia).
  assert (H5 : small (len lines)) by (unfold small in *; lia).
  rewrite (cropTree_positive_height lines cl H r HH H1 H2 H3 H4 H5).
  assert (E : nextOffset (len lines) cl H (EdgePadding r) (offsetMem r) = 0).
  { unfold nextOffset. rewrite Ho. case_ltb; lia. }
  rewrite E, Z.add_0_r, Z.min_r by lia.
  rewrite slice_to_end by lia. cbn [Z.to_nat skipn].
  destruct r as [P o]. cbn [EdgePadding offsetMem] in *. subst o. reflexivity.
Qed.

(** X7: a list no longer than the window, with the selection clear of the
    bottom padding and a renderer at offset 0, is returned whole and the
    renderer is left as it was. *)
Theorem cropTree_short_list_whole {A} (lines : list A) (cl H : Z) (r : Renderer) :
  0 < H -> len lines <= H -> small H ->
  offsetMem r = 0 -> 0 <= EdgePadding r ->
  0 <= cl -> cl + 1 <= H - EdgePadding r ->
  cropTree lines cl H r = (Ok lines, r).
Proof. exact (cropTree_whole lines cl H r). Qed.

Lemma cropTree_short_list_whole_witness :
  cropTree sevenLines 2 10 (mkRenderer 5 0) = (Ok sevenLines, mkRenderer 5 0).
Proof.
  apply (cropTree_short_list_whole sevenLines 2 10 (mkRenderer 5 0));
    unfold small, len; cbn; lia.
Defined.

(** X8: a list shorter than the window, drawn by a renderer at offset 0,
    with the selection within the padding of the window's bottom and at or
    below row [P + N - H]: the offset [N - H], which is negative, is
    persisted and the slice expression panics. *)
Theorem cropTree_short_list_panics {A} (lines : list A) (cl H : Z) (r : Renderer) :
  0 < H -> len lines < H -> small H -> small cl ->
  offsetMem r = 0 -> 0 <= EdgePadding r -> small (EdgePadding r) ->
  H - EdgePadding r < cl + 1 ->
  EdgePadding r + len lines - H <= cl ->
  cropTree lines cl H r = (Panic, mkRenderer (EdgePadding r) (len lines - H)).
Proof.
  intros HH HN H1 H2 Ho HP H3 Hbottom Htop.
  pose proof (len_nonneg lines) as Hlen.
  assert (H4 : small (offsetMem r)) by (unfold small in *; lia).
  assert (H5 : small (len lines)) by (unfold small in *; lia).
  rewrite (cropTree_positive_height lines cl H r HH H1 H2 H3 H4 H5).
  assert (E : nextOffset (len lines) cl H (EdgePadding r) (offsetMem r)
              = len lines - H).
  { unfold nextOffset. rewrite Ho. case_ltb; lia. }
  rewrite E. unfold slice.
  replace (0 <=? len lines - H) with false by (symmetry; apply Z.leb_gt; lia).
  reflexivity.
Qed.

Lemma cropTree_short_list_panics_witness :
  cropTree (linesOfLength 4) 3 6 (mkRenderer 3 0) = (Panic, mkRenderer 3 (4 - 6)).
Proof.
  apply (cropTree_short_list_panics (linesOfLength 4) 3 6 (mkRenderer 3 0));
    unfold small, len; cbn; lia.
Defined.

(** X9: where the list fills the window and the persisted offset is one
    the invariant allows, a second call with the same selection and sizes
    leaves the renderer as the first call left it. *)
Theorem cropTree_idempotent {A} (lines : list A) (cl H : Z) (r : Renderer) :
  0 < H <= len lines -> 0 <= offsetMem r <= len lines - H ->
  small cl -> small (EdgePadding r) -> small (len lines) ->
  snd (cropTree lines cl H (snd (cropTree lines cl H r)))
  = snd (cropTree lines cl H r).
Proof. exact (cropTree_twice_in_range lines cl H r). Qed.

Lemma cropTree_idempotent_witness :
  snd (cropTree (linesOfLength 20) 12 10
         (snd (cropTree (linesOfLength 20) 12 10 (mkRenderer 5 0))))
  = snd (cropTree (linesOfLength 20) 12 10 (mkRenderer 5 0)).
Proof.
  apply (cropTree_idempotent (linesOfLength 20) 12 10 (mkRenderer 5 0));
    unfold small, len; cbn; lia.
Defined.

(** ** The stack *)

(** X10: last in, first out; popping an empty stack panics. *)
Theorem stack_last_in_first_out {T} (s : stack.stack T) (a b : T) :
  rbind (stack.Pop (stack.Push (stack.Push s a) b)) (fun p1 =>
  rbind (stack.Pop (snd p1)) (fun p2 => Ok (fst p1, fst p2, snd p2)))
  = Ok (b, a, s) /\
  stack.Len (stack.Push s a) = stack.Len s + 1 /\
  stack.Pop (@nil T) = Panic.
Proof.
  split; [|split].
  - rewrite Pop_Push. cbn [rbind fst snd]. rewrite Pop_Push. reflexivity.
  - unfold stack.Len, stack.Push, len. rewrite length_app. cbn. lia.
  - reflexivity.
Qed.

(** X11: after the children are pushed in reverse, the first child in
    stored order is on top, above the remaining children pushed the same
    way. *)
Theorem pushChildren_first_child_on_top
        (c : option tree.Node) (ch : list (option tree.Node)) (d : nat)
        (s : stack.stack stackEl) :
  stack.Pop (pushChildren (c :: ch) d s)
  = Ok ((c, (d + 1)%nat), pushChildren ch d s).
Proof.
  rewrite !pushChildren_app. cbn [rev]. rewrite map_app, app_assoc.
  cbn [map]. apply (Pop_Push (s ++ map (fun c0 => (c0, (d + 1)%nat)) (rev ch))%list).
Qed.

(** ** renderTree *)

(** X12: a nil root gives no lines and index 0, in both packages. *)
Theorem renderTree_nil_root (ext : Ext) (t : tree.Tree) (widthLim : Z) :
  tree.Root t = None ->
  ui.renderTree ext t widthLim = Ok ([], 0) /\
  main.renderTree ext t = Ok ([], 0).
Proof.
  intros H. unfold ui.renderTree, main.renderTree, renderTreeLoop.
  rewrite H. split; reflexivity.
Qed.

Lemma renderTree_nil_root_witness :
  ui.renderTree sampleExt (tree.mkTree None None None None) 40 = Ok ([], 0) /\
  main.renderTree sampleExt (tree.mkTree None None None None) = Ok ([], 0).
Proof.
  apply (renderTree_nil_root sampleExt (tree.mkTree None None None None) 40).
  reflexivity.
Defined.

Section Counting.

Import tree.

Variable ext : Ext.
Variable tr : Tree.
Variable nodeLine : Node -> nat -> result string.

Lemma length_flat_map_emit (P : list (Node * nat)) :
  List.length (flat_map (emit ext tr nodeLine) P)
  = (List.length P + emptyCurrentCount tr P)%nat.
Proof.
  unfold emptyCurrentCount.
  induction P as [|nd P IH]; [reflexivity|].
  cbn [flat_map filter]. rewrite length_app, IH. unfold emit.
  destruct (emptyCurrent tr (fst nd)); cbn [List.length app]; lia.
Qed.

Lemma flat_map_emit_plain (P : list (Node * nat)) :
  (forall nd, In nd P -> emptyCurrent tr (fst nd) = false) ->
  flat_map (emit ext tr nodeLine) P = nodeLines ext tr nodeLine P.
Proof.
  induction P as [|nd P IH]; intros H; [reflexivity|].
  cbn [flat_map nodeLines map]. unfold emit at 1.
  rewrite (H nd (or_introl eq_refl)). cbn [app]. f_equal.
  apply IH. intros x Hx. apply H. right. exact Hx.
Qed.

(** The selected index never leaves the lines collected so far. *)
Lemma fold_selStep_bounds (P : list (Node * nat)) :
  forall l c e,
    -1 <= l -> 0 <= e -> 0 <= c <= Z.max 0 (l + e) ->
    fst (fold_left (selStep tr) (map (fun nd => (Some (fst nd), snd nd)) P) (l, c))
    = l + len P /\
    0 <= snd (fold_left (selStep tr)
                (map (fun nd => (Some (fst nd), snd nd)) P) (l, c))
      <= Z.max 0 (l + len P + e + Z.of_nat (emptyCurrentCount tr P)).
Proof.
  unfold emptyCurrentCount.
  induction P as [|nd P IH]; intros l c e Hl He Hc.
  - cbn. unfold len. cbn. rewrite !Z.add_0_r. exact (conj eq_refl Hc).
  - cbn [map fold_left filter].
    assert (Estep : selStep tr (l, c) (Some (fst nd), snd nd)
                    = (l + 1, if emptyCurrent tr (fst nd) then l + 1 + 1
                              else if isSelected tr (fst nd) then l + 1 else c))
      by reflexivity.
    rewrite Estep. clear Estep.
    destruct (emptyCurrent tr (fst nd)) eqn:Ee.
    + destruct (IH (l + 1) (l + 1 + 1) (e + 1) ltac:(lia) ltac:(lia) ltac:(lia))
        as [H1 H2].
      rewrite H1. split; [unfold len; cbn [List.length]; lia|].
      cbn [List.length]. unfold len in *. cbn [List.length]. lia.
    + destruct (isSelected tr (fst nd)).
      * destruct (IH (l + 1) (l + 1) e ltac:(lia) ltac:(lia) ltac:(lia))
          as [H1 H2].
        rewrite H1. split; [unfold len; cbn [List.length]; lia|].
        unfold len in *. cbn [List.length]. lia.
      * destruct (IH (l + 1) c e ltac:(lia) ltac:(lia) ltac:(lia))
          as [H1 H2].
        rewrite H1. split; [unfold len; cbn [List.length]; lia|].
        unfold len in *. cbn [List.length]. lia.
Qed.

End Counting.

(** X13: the number of lines is the number of visited nodes plus one for
    each visited node that is the empty current directory. *)
Theorem renderTree_line_count (ext : Ext) (t : tree.Tree) (widthLim : Z) :
  widthFits widthLim t ->
  (exists lines cur,
      ui.renderTree ext t widthLim = Ok (lines, cur) /\
      List.length lines
      = (List.length (preorderPtr 0 (tree.Root t))
         + emptyCurrentCount t (preorderPtr 0 (tree.Root t)))%nat) /\
  (exists lines cur,
      main.renderTree ext t = Ok (lines, cur) /\
      List.length lines
      = (List.length (preorderPtr 0 (tree.Root t))
         + emptyCurrentCount t (preorderPtr 0 (tree.Root t)))%nat).
Proof.
  intros Hfit. split.
  - eexists _, _. split; [apply (ui_renderTree_spec ext t widthLim Hfit)|].
    apply length_flat_map_emit.
  - eexists _, _. split; [apply main_renderTree_spec|].
    apply length_flat_map_emit.
Qed.

Lemma renderTree_line_count_witness :
  (exists lines cur,
      ui.renderTree sampleExt subTree 40 = Ok (lines, cur) /\
      List.length lines = (3 + 1)%nat) /\
  (exists lines cur,
      main.renderTree sampleExt subTree = Ok (lines, cur) /\
      List.length lines = (3 + 1)%nat).
Proof.
  assert (Hfit : widthFits 40 subTree).
  { split; [vm_compute; discriminate|].
    repeat constructor; vm_compute; discriminate. }
  exact (renderTree_line_count sampleExt subTree 40 Hfit).
Defined.

(** X14: when no child pointer is nil, the selected index returned is a
    valid row of the lines returned (0 when there is no line). *)
Theorem renderTree_selected_index_in_range
        (ext : Ext) (t : tree.Tree) (widthLim : Z) :
  widthFits widthLim t -> noNilPointers t ->
  (exists lines cur,
      ui.renderTree ext t widthLim = Ok (lines, cur) /\
      0 <= cur <= Z.max 0 (len lines - 1)) /\
  (exists lines cur,
      main.renderTree ext t = Ok (lines, cur) /\
      0 <= cur <= Z.max 0 (len lines - 1)).
Proof.
  intros Hfit Hnil.
  assert (Hcur : forall nodeLine,
             0 <= snd (fold_left (selStep t) (popsPtr 0 (tree.Root t)) (-1, 0))
             <= Z.max 0 (len (flat_map (emit ext t nodeLine)
                                       (preorderPtr 0 (tree.Root t))) - 1)).
  { intros nodeLine. rewrite Hnil.
    destruct (fold_selStep_bounds t (preorderPtr 0 (tree.Root t)) (-1) 0 0
                ltac:(lia) ltac:(lia) ltac:(lia)) as [_ H].
    unfold len in *. rewrite length_flat_map_emit. lia. }
  split.
  - eexists _, _. split; [apply (ui_renderTree_spec ext t widthLim Hfit)|].
    apply Hcur.
  - eexists _, _. split; [apply main_renderTree_spec|]. apply Hcur.
Qed.

Lemma renderTree_selected_index_in_range_witness :
  (exists lines cur,
      ui.renderTree sampleExt repoTree 40 = Ok (lines, cur) /\
      0 <= cur <= Z.max 0 (len lines - 1)) /\
  (exists lines cur,
      main.renderTree sampleExt repoTree = Ok (lines, cur) /\
      0 <= cur <= Z.max 0 (len lines - 1)).
Proof.
  assert (Hfit : widthFits 40 repoTree).
  { split; [vm_compute; discriminate|].
    repeat constructor; vm_compute; discriminate. }
  apply (renderTree_selected_index_in_range sampleExt repoTree 40 Hfit).
  reflexivity.
Defined.

Lemma nth_error_nodeLines_middle (ext : Ext) (t : tree.Tree)
      (nodeLine : tree.Node -> nat -> result string)
      (before after : list (tree.Node * nat)) (nd : tree.Node * nat) :
  nth_error (nodeLines ext t nodeLine (before ++ nd :: after))
            (List.length before)
  = Some (lineText ext t nodeLine (fst nd) (snd nd)).
Proof.
  unfold nodeLines. rewrite map_app. cbn [map].
  rewrite nth_error_app2 by (rewrite length_map; lia).
  rewrite length_map, Nat.sub_diag. reflexivity.
Qed.

(** The selected index when the selected child is a visited node, no
    child pointer is nil and no placeholder is emitted. *)
Lemma selected_index_of_child (t : tree.Tree) (sel : tree.Node) (d : nat)
      (before after : list (tree.Node * nat)) :
  tree.GetSelectedChild t = Some sel ->
  (forall nd, In nd (before ++ (sel, d) :: after) ->
              emptyCurrent t (fst nd) = false) ->
  (forall nd, In nd (before ++ after)%list -> tree.addr (fst nd) <> tree.addr sel) ->
  snd (fold_left (selStep t)
         (map (fun nd => (Some (fst nd), snd nd)) (before ++ (sel, d) :: after))
         (-1, 0))
  = len before.
Proof.
  intros Hsel Hplain Hothers.
  assert (Hinert : forall P : list (tree.Node * nat),
             (forall nd, In nd P -> In nd (before ++ after)%list) ->
             forall nd, In nd P ->
                        isSelected t (fst nd) = false /\
                        emptyCurrent t (fst nd) = false).
  { intros P HP nd Hx. split.
    - unfold isSelected. rewrite Hsel. cbn [tree.ptrEq].
      apply N.eqb_neq. intros E. apply (Hothers nd (HP nd Hx)). congruence.
    - apply Hplain. specialize (HP nd Hx). apply in_app_or in HP.
      apply in_or_app. destruct HP; [left | right; right]; assumption. }
  rewrite map_app, fold_left_app. cbn [map fold_left].
  rewrite (fold_selStep_inert t before)
    by (apply Hinert; intros nd Hx; apply in_or_app; left; exact Hx).
  rewrite (fold_selStep_inert t after)
    by (apply Hinert; intros nd Hx; apply in_or_app; right; exact Hx).
  pose proof (Hplain (sel, d) ltac:(apply in_or_app; right; left; reflexivity))
    as He. cbn [fst] in He.
  unfold selStep. cbn [fst snd]. rewrite He.
  unfold isSelected. rewrite Hsel. cbn [tree.ptrEq fst]. rewrite N.eqb_refl.
  cbn [fst snd]. lia.
Qed.

(** X15: with nodes at distinct addresses, no nil child pointer and no
    empty current directory, the index returned is the row of the selected
    child, and that row is the child's line followed by the marker. *)
Theorem renderTree_selected_row
        (ext : Ext) (t : tree.Tree) (widthLim : Z) (sel : tree.Node) (d : nat) :
  widthFits widthLim t -> noNilPointers t -> distinctAddresses t ->
  tree.GetSelectedChild t = Some sel ->
  In (sel, d) (preorderPtr 0 (tree.Root t)) ->
  (forall nd, In nd (preorderPtr 0 (tree.Root t)) ->
              emptyCurrent t (fst nd) = false) ->
  exists before after lines text,
    preorderPtr 0 (tree.Root t) = (before ++ (sel, d) :: after)%list /\
    ui.renderTree ext t widthLim = Ok (lines, len before) /\
    ui.nodeLine ext t widthLim sel d = Ok text /\
    nth_error lines (List.length before) = Some (text ++ YellowString ext " <-").
Proof.
  intros Hfit Hnil Hdistinct Hsel Hin Hplain.
  destruct (in_split _ _ Hin) as (before & after & Hsplit).
  assert (Hothers : forall nd, In nd (before ++ after)%list ->
                               tree.addr (fst nd) <> tree.addr sel).
  { unfold distinctAddresses in Hdistinct. rewrite Hsplit, map_app in Hdistinct.
    cbn [map fst] in Hdistinct. apply NoDup_remove_2 in Hdistinct.
    intros nd Hx Heq. apply Hdistinct. rewrite <- map_app, <- Heq.
    apply (in_map (fun nd => tree.addr (fst nd))). exact Hx. }
  pose proof (widthFits_lines ext t widthLim Hfit) as Hok.
  rewrite Forall_forall in Hok. destruct (Hok (sel, d) Hin) as [text Htext].
  cbn [fst snd] in Htext.
  exists before, after. eexists. exists text.
  split; [exact Hsplit|]. split; [|split; [exact Htext|]].
  - rewrite (ui_renderTree_spec ext t widthLim Hfit). f_equal. f_equal.
    rewrite Hnil, Hsplit.
    apply (selected_index_of_child t sel d before after Hsel);
      [rewrite <- Hsplit; exact Hplain | exact Hothers].
  - rewrite (flat_map_emit_plain ext t _ _ Hplain), Hsplit.
    rewrite nth_error_nodeLines_middle. unfold lineText, isSelected.
    cbn [fst snd]. rewrite Htext, Hsel. cbn [tree.ptrEq]. rewrite N.eqb_refl.
    reflexivity.
Qed.

Lemma renderTree_selected_row_witness :
  exists before after lines text,
    preorderPtr 0 (tree.Root repoTree) = (before ++ (xTxt, 1%nat) :: after)%list /\
    ui.renderTree sampleExt repoTree 40 = Ok (lines, len before) /\
    ui.nodeLine sampleExt repoTree 40 xTxt 1 = Ok text /\
    nth_error lines (List.length before) = Some (text ++ sgr "33" " <-").
Proof.
  assert (Hfit : widthFits 40 repoTree).
  { split; [vm_compute; discriminate|].
    repeat constructor; vm_compute; discriminate. }
  apply (renderTree_selected_row sampleExt repoTree 40 xTxt 1 Hfit).
  - reflexivity.
  - unfold distinctAddresses. vm_compute.
    repeat constructor; cbn; intuition discriminate.
  - reflexivity.
  - vm_compute. right. left. reflexivity.
  - intros nd Hin. vm_compute in Hin.
    destruct Hin as [<-|[<-|[<-|[]]]]; reflexivity.
Defined.

(** X16: a node that is neither a directory nor marked and fits the budget
    keeps its whole name. *)
Theorem nodeLine_fitting_name (ext : Ext) (t : tree.Tree) (widthLim : Z)
        (node : tree.Node) (d : nat) :
  widthLim <= GoInt.max_int ->
  GoInt.min_int + 6 <= widthLim ->
  tree.IsDir (tree.Info node) = false ->
  tree.ptrEq (tree.Marked t) node = false ->
  utf8.RuneCountInString (tree.Name (tree.Info node)) + 2 * Z.of_nat d
    <= widthLim - 6 ->
  ui.nodeLine ext t widthLim node d
  = Ok (strings.Repeat "  " d ++ tree.Name (tree.Info node)).
Proof.
  intros Hmax Hmin Hdir Hmark Hfits. unfold ui.nodeLine.
  rewrite RuneCountInString_indent, Hdir, Hmark.
  assert (E1 : widthLim -i 6 = widthLim - 6) by (unwrap; reflexivity).
  rewrite E1.
  replace (widthLim - 6 <? _) with false by (symmetry; apply Z.ltb_ge; exact Hfits).
  reflexivity.
Qed.

Lemma nodeLine_fitting_name_witness :
  ui.nodeLine sampleExt repoTree 40 xTxt 1 = Ok "  x.txt".
Proof.
  apply (nodeLine_fitting_name sampleExt repoTree 40 xTxt 1);
    try reflexivity; vm_compute; discriminate.
Defined.

(** ** The heading, the preview and the render entry point *)

(** Only a nil current directory or the size formatter can fail. *)
Lemma renderHeading_ok (ext : Ext) (s : state.State) (cd : tree.Node) :
  tree.CurrentDir (state.Tree s) = Some cd ->
  (forall sel, tree.GetSelectedChild (state.Tree s) = Some sel ->
               GoInt.in_int (tree.Size (tree.Info sel))) ->
  exists h, ui.renderHeading ext s = Ok (h, 3).
Proof.
  intros Hcd Hsize.
  destruct (tree.GetSelectedChild (state.Tree s)) as [sel|] eqn:Hsel.
  - destruct (formatSize_ofInt_ok _ (Hsize sel eq_refl)) as [size Hfmt].
    eexists. apply (renderHeading_selection ext s cd sel size Hcd Hsel Hfmt).
  - eexists. apply (renderHeading_no_selection ext s cd Hcd Hsel).
Qed.

(** X17: renderHeading panics when the current directory is nil (the
    path expression dereferences it); for every other state whose selected
    child, if any, has an int64 size it returns and reports the count 3.
    Nothing is said here about the rows of the returned block. *)
Theorem renderHeading_returns (ext : Ext) (s : state.State) :
  (forall sel, tree.GetSelectedChild (state.Tree s) = Some sel ->
               GoInt.in_int (tree.Size (tree.Info sel))) ->
  (tree.CurrentDir (state.Tree s) = None -> ui.renderHeading ext s = Panic) /\
  (forall cd, tree.CurrentDir (state.Tree s) = Some cd ->
              exists h, ui.renderHeading ext s = Ok (h, 3)).
Proof.
  intros Hsize. split.
  - intros Hnil. unfold ui.renderHeading. rewrite Hnil. reflexivity.
  - intros cd Hcd. exact (renderHeading_ok ext s cd Hcd Hsize).
Qed.

Lemma renderHeading_returns_witness :
  (tree.CurrentDir (state.Tree sixFilesState) = None ->
   ui.renderHeading sampleExt sixFilesState = Panic) /\
  (forall cd, tree.CurrentDir (state.Tree sixFilesState) = Some cd ->
              exists h, ui.renderHeading sampleExt sixFilesState = Ok (h, 3)).
Proof.
  apply (renderHeading_returns sampleExt sixFilesState).
  intros sel Hsel. injection Hsel as <-.
  unfold GoInt.in_int, GoInt.min_int, GoInt.max_int. cbn. lia.
Defined.

(** The bounds of the preview slice are always within the lines. *)
Lemma previewLines_eq (content : string) (winHeight : Z) :
  previewLines content winHeight
  = Ok (if utf8.Valid content
        then firstn (Z.to_nat winHeight) (strings.SplitLines content)
        else ["<binary content>"]).
Proof.
  unfold previewLines. destruct (utf8.Valid content); cbn [negb]; [|reflexivity].
  set (l := strings.SplitLines content).
  pose proof (len_nonneg l) as Hl.
  rewrite slice_ok by lia. cbn [Z.to_nat skipn]. rewrite Z.sub_0_r. f_equal.
  unfold len in *.
  destruct (Z_le_gt_dec winHeight (Z.of_nat (List.length l))) as [H|H].
  - f_equal. lia.
  - rewrite !firstn_all2 by lia. reflexivity.
Qed.

(** X18: the preview lines never fail: binary content gives the single
    placeholder line whatever the height, text gives its first
    [winHeight] lines (none for a height that is not positive). *)
Theorem previewLines_capped (content : string) (winHeight : Z) :
  previewLines content winHeight
  = Ok (if utf8.Valid content
        then firstn (Z.to_nat winHeight) (strings.SplitLines content)
        else ["<binary content>"]).
Proof. exact (previewLines_eq content winHeight). Qed.

Lemma cropTree_returns_or_panics {A} (lines : list A) (cl H : Z) (r : Renderer) :
  fst (cropTree lines cl H r) <> OutOfFuel.
Proof.
  unfold cropTree, bind, getR, setOffsetMem, lift.
  destruct (0 <? H); cbn [fst]; unfold slice;
    match goal with |- context [if ?c then _ else _] => destruct c end;
    discriminate.
Qed.

(** Past the size check, the tree/preview block fails exactly as the
    crop does and leaves the renderer as the crop leaves it. *)
Lemma renderTreeWithContent_after_crop (ext : Ext) (t : tree.Tree)
      (winHeight winWidth : Z) (lines : list string) (cur : Z) (r : Renderer) :
  ui.minWidth <= winWidth -> ui.minHeight <= winHeight ->
  ui.renderTree ext t (halfWidth winWidth) = Ok (lines, cur) ->
  snd (ui.renderTreeWithContent ext t winHeight winWidth r)
    = snd (cropTree lines cur winHeight r) /\
  match fst (cropTree lines cur winHeight r) with
  | Ok _ => exists text,
      fst (ui.renderTreeWithContent ext t winHeight winWidth r) = Ok text
  | Panic => fst (ui.renderTreeWithContent ext t winHeight winWidth r) = Panic
  | OutOfFuel => False
  end.
Proof.
  intros Hw Hh Htree.
  pose proof (cropTree_returns_or_panics lines cur winHeight r) as Hfuel.
  unfold ui.renderTreeWithContent.
  replace ((winWidth <? ui.minWidth) || (winHeight <? ui.minHeight)) with false
    by (symmetry; apply orb_false_iff; split; apply Z.ltb_ge; assumption).
  unfold bind, lift, ret. cbv beta. rewrite Htree. cbv beta iota.
  revert Hfuel.
  destruct (cropTree lines cur winHeight r) as [[out| |] r'];
    cbn [fst snd]; intros Hfuel; try (split; reflexivity); [|congruence].
  destruct (ReadSelectedChildContent ext t previewBytesLimit) as [content|].
  - rewrite previewLines_eq. cbn [fst snd].
    split; [reflexivity | eexists; reflexivity].
  - cbn [fst snd]. split; [reflexivity | eexists; reflexivity].
Qed.

(** Render after the heading and the size check: the outcome of the
    crop, with the heading in front of the block when it returns. *)
Lemma Render_after_crop
        (ext : Ext) (s : state.State) (cd : tree.Node) (winHeight winWidth : Z) :
  tree.CurrentDir (state.Tree s) = Some cd ->
  (forall sel, tree.GetSelectedChild (state.Tree s) = Some sel ->
               GoInt.in_int (tree.Size (tree.Info sel))) ->
  ui.minWidth <= winWidth -> ui.minHeight <= winHeight - 3 ->
  GoInt.in_int (winHeight - 3) ->
  widthFits (halfWidth winWidth) (state.Tree s) ->
  exists lines cur,
    ui.renderTree ext (state.Tree s) (halfWidth winWidth) = Ok (lines, cur) /\
    forall r,
      snd (ui.Render ext s winHeight winWidth r)
        = snd (cropTree lines cur (winHeight - 3) r) /\
      match fst (cropTree lines cur (winHeight - 3) r) with
      | Ok _ => exists text, fst (ui.Render ext s winHeight winWidth r) = Ok text
      | Panic => fst (ui.Render ext s winHeight winWidth r) = Panic
      | OutOfFuel => False
      end.
Proof.
  intros Hcd Hsize Hw Hh Hrange Hfit.
  destruct (renderHeading_ok ext s cd Hcd Hsize) as [h Hh3].
  eexists _, _. split; [apply (ui_renderTree_spec ext _ _ Hfit)|].
  intros r.
  rewrite (Render_unfold ext s h 3 winHeight winWidth r Hh3).
  unfold GoInt.sub. rewrite (wrap_id _ Hrange).
  destruct (renderTreeWithContent_after_crop ext (state.Tree s) (winHeight - 3)
              winWidth _ _ r Hw Hh (ui_renderTree_spec ext _ _ Hfit))
    as [Hsnd Hfst].
  unfold bind, ret.
  destruct (ui.renderTreeWithContent ext (state.Tree s) (winHeight - 3) winWidth r)
    as [[text| |] r'] eqn:E; cbn [fst snd] in *;
    (split; [exact Hsnd|]);
    (destruct (fst (cropTree _ _ (winHeight - 3) r));
     [ destruct Hfst as [t' Ht]; first [discriminate Ht | eexists; reflexivity]
     | first [discriminate Hfst | reflexivity]
     | contradiction ]).
Qed.

(** X19: in a window that is not too small, for a state whose current
    directory is set and whose selected size is an int64, Render panics
    exactly when the crop of the flattened tree panics, never runs out of
    fuel, and leaves the renderer as the crop leaves it. *)
Theorem Render_fails_only_in_crop
        (ext : Ext) (s : state.State) (cd : tree.Node) (winHeight winWidth : Z) :
  tree.CurrentDir (state.Tree s) = Some cd ->
  (forall sel, tree.GetSelectedChild (state.Tree s) = Some sel ->
               GoInt.in_int (tree.Size (tree.Info sel))) ->
  ui.minWidth <= winWidth -> ui.minHeight <= winHeight - 3 ->
  GoInt.in_int (winHeight - 3) ->
  widthFits (halfWidth winWidth) (state.Tree s) ->
  exists lines cur,
    ui.renderTree ext (state.Tree s) (halfWidth winWidth) = Ok (lines, cur) /\
    forall r,
      (fst (ui.Render ext s winHeight winWidth r) = Panic
       <-> fst (cropTree lines cur (winHeight - 3) r) = Panic) /\
      fst (ui.Render ext s winHeight winWidth r) <> OutOfFuel /\
      snd (ui.Render ext s winHeight winWidth r)
        = snd (cropTree lines cur (winHeight - 3) r).
Proof.
  intros Hcd Hsize Hw Hh Hrange Hfit.
  destruct (Render_after_crop ext s cd winHeight winWidth
              Hcd Hsize Hw Hh Hrange Hfit) as (lines & cur & Htree & H).
  exists lines, cur. split; [exact Htree|]. intros r.
  destruct (H r) as [Hsnd Hfst].
  destruct (fst (cropTree lines cur (winHeight - 3) r)) eqn:Ec.
  - destruct Hfst as [text Htext]. rewrite Htext.
    repeat split; try discriminate; exact Hsnd.
  - rewrite Hfst. repeat split; try discriminate; exact Hsnd.
  - contradiction.
Qed.

Lemma Render_fails_only_in_crop_witness :
  exists lines cur,
    ui.renderTree sampleExt sixFilesTree (halfWidth 40) = Ok (lines, cur) /\
    forall r,
      (fst (ui.Render sampleExt sixFilesState 13 40 r) = Panic
       <-> fst (cropTree lines cur (13 - 3) r) = Panic) /\
      fst (ui.Render sampleExt sixFilesState 13 40 r) <> OutOfFuel /\
      snd (ui.Render sampleExt sixFilesState 13 40 r)
        = snd (cropTree lines cur (13 - 3) r).
Proof.
  apply (Render_fails_only_in_crop sampleExt sixFilesState sixFiles 13 40).
  - reflexivity.
  - intros sel Hsel. injection Hsel as <-.
    unfold GoInt.in_int, GoInt.min_int, GoInt.max_int. cbn. lia.
  - unfold ui.minWidth. lia.
  - unfold ui.minHeight. lia.
  - unfold GoInt.in_int, GoInt.min_int, GoInt.max_int. lia.
  - split; [vm_compute; discriminate|].
    repeat constructor; vm_compute; discriminate.
Defined.

(** X20: a tree whose lines fit in the window above the bottom padding,
    drawn by a renderer at offset 0: Render returns a string and leaves
    the renderer as it was. *)
Theorem Render_fitting_tree
        (ext : Ext) (s : state.State) (cd : tree.Node) (winHeight winWidth : Z)
        (r : Renderer) :
  tree.CurrentDir (state.Tree s) = Some cd ->
  (forall sel, tree.GetSelectedChild (state.Tree s) = Some sel ->
               GoInt.in_int (tree.Size (tree.Info sel))) ->
  ui.minWidth <= winWidth -> ui.minHeight <= winHeight - 3 -> small winHeight ->
  widthFits (halfWidth winWidth) (state.Tree s) ->
  noNilPointers (state.Tree s) ->
  offsetMem r = 0 -> 0 <= EdgePadding r < winHeight - 3 ->
  Z.of_nat (List.length (preorderPtr 0 (tree.Root (state.Tree s)))
            + emptyCurrentCount (state.Tree s)
                (preorderPtr 0 (tree.Root (state.Tree s))))
    <= winHeight - 3 - EdgePadding r ->
  exists text, ui.Render ext s winHeight winWidth r = (Ok text, r).
Proof.
  intros Hcd Hsize Hw Hh Hsmall Hfit Hnil Ho HP Hcount.
  assert (Hrange : GoInt.in_int (winHeight - 3))
    by (unfold small, GoInt.in_int, GoInt.min_int, GoInt.max_int in *; lia).
  destruct (Render_after_crop ext s cd winHeight winWidth
              Hcd Hsize Hw Hh Hrange Hfit) as (lines & cur & Htree & Hrender).
  destruct (Hrender r) as [Hsnd Hfst].
  assert (Hlines : lines = flat_map (emit ext (state.Tree s)
                                      (ui.nodeLine ext (state.Tree s) (halfWidth winWidth)))
                             (preorderPtr 0 (tree.Root (state.Tree s))) /\
                   cur = snd (fold_left (selStep (state.Tree s))
                                (popsPtr 0 (tree.Root (state.Tree s))) (-1, 0))).
  { rewrite (ui_renderTree_spec ext _ _ Hfit) in Htree.
    injection Htree as <- <-. split; reflexivity. }
  destruct Hlines as [Hl Hc].
  assert (Hlen : len lines <= winHeight - 3 - EdgePadding r).
  { unfold len. rewrite Hl, length_flat_map_emit. exact Hcount. }
  assert (Hcur : 0 <= cur <= Z.max 0 (len lines - 1)).
  { rewrite Hc, Hnil.
    destruct (fold_selStep_bounds (state.Tree s)
                (preorderPtr 0 (tree.Root (state.Tree s))) (-1) 0 0
                ltac:(lia) ltac:(lia) ltac:(lia)) as [_ H].
    unfold len in *. rewrite Hl, length_flat_map_emit. lia. }
  unfold ui.minHeight in Hh.
  rewrite (cropTree_whole lines cur (winHeight - 3) r) in Hsnd, Hfst
    by (unfold small in *; lia).
  cbn [fst snd] in *. destruct Hfst as [text Htext].
  exists text. destruct (ui.Render ext s winHeight winWidth r) as [res r'].
  cbn [fst snd] in *. subst. reflexivity.
Qed.

Lemma Render_fitting_tree_witness :
  exists text,
    ui.Render sampleExt sixFilesState 20 40 (mkRenderer 5 0)
    = (Ok text, mkRenderer 5 0).
Proof.
  apply (Render_fitting_tree sampleExt sixFilesState sixFiles 20 40 (mkRenderer 5 0)).
  - reflexivity.
  - intros sel Hsel. injection Hsel as <-.
    unfold GoInt.in_int, GoInt.min_int, GoInt.max_int. cbn. lia.
  - unfold ui.minWidth. lia.
  - unfold ui.minHeight. lia.
  - unfold small. lia.
  - split; [vm_compute; discriminate|].
    repeat constructor; vm_compute; discriminate.
  - reflexivity.
  - reflexivity.
  - cbn. lia.
  - vm_compute. discriminate.
Defined.

(** ** Integers below 2^53 as floats: exact *)

Lemma iter_xO_value (p k : positive) :
  Zpos (Pos.iter xO p k) = Zpos p * 2 ^ Zpos k.
Proof.
  induction k as [|k IH] using Pos.peano_ind.
  - cbn [Pos.iter]. rewrite Pos2Z.inj_xO. change (2 ^ 1) with 2. lia.
  - rewrite Pos.iter_succ, Pos2Z.inj_xO, IH, Pos2Z.inj_succ.
    rewrite Z.pow_succ_r by lia. lia.
Qed.

Lemma binary_round_aux_exact (mz : positive) (ez : Z) :
  Zpos (digits2_pos mz) = 53 -> -1074 <= ez <= 971 ->
  binary_round_aux prec emax false (Zpos mz) ez loc_Exact
  = S754_finite false mz ez.
Proof.
  intros Hd He. unfold binary_round_aux, shr_fexp.
  cbn [Zdigits2 shr_record_of_loc]. rewrite Hd.
  unfold fexp, SpecFloat.emin. change prec with 53. change emax with 1024.
  replace (Z.max (53 + ez - 53) (3 - 1024 - 53) - ez) with 0 by lia.
  cbn [shr shr_m loc_of_shr_record round_nearest_even Zdigits2]. rewrite Hd.
  replace (Z.max (53 + ez - 53) (3 - 1024 - 53) - ez) with 0 by lia.
  cbn [shr shr_m].
  replace (ez <=? 1024 - 53) with true by (symmetry; apply Z.leb_le; lia).
  reflexivity.
Qed.

(** The float of a positive integer below 2^53: the integer itself,
    normalised to 53 digits. *)
Lemma Prim2SF_ofInt_exact (p : positive) :
  Zpos p < 2 ^ 53 ->
  exists mz,
    Prim2SF (float64.ofInt (Zpos p))
    = S754_finite false mz (Zpos (digits2_pos p) - 53) /\
    Zpos (digits2_pos mz) = 53 /\
    Zpos mz = Zpos p * 2 ^ (53 - Zpos (digits2_pos p)).
Proof.
  intros Hp.
  assert (Hd : Zpos (digits2_pos p) <= 53) by (apply digits2_le; lia).
  rewrite Prim2SF_ofInt_pos by lia.
  unfold binary_round, shl_align.
  unfold fexp, SpecFloat.emin. change prec with 53. change emax with 1024.
  destruct (Z.max (Zpos (digits2_pos p) + 0 - 53) (3 - 1024 - 53) - 0)
    as [|k|k] eqn:E.
  - assert (Hd53 : Zpos (digits2_pos p) = 53) by lia.
    exists p. rewrite Hd53. split; [|split; [reflexivity | cbn; lia]].
    apply binary_round_aux_exact; [exact Hd53 | lia].
  - lia.
  - exists (Pos.iter xO p k).
    assert (Hk : Zpos k = 53 - Zpos (digits2_pos p)) by lia.
    assert (Hdk : Zpos (digits2_pos (Pos.iter xO p k)) = 53)
      by (rewrite digits2_iter_xO; lia).
    split; [|split; [exact Hdk | rewrite iter_xO_value, Hk; reflexivity]].
    replace (Zpos (digits2_pos p) - 53)
      with (Z.max (Zpos (digits2_pos p) + 0 - 53) (3 - 1024 - 53)) by lia.
    apply binary_round_aux_exact; [exact Hdk | lia].
Qed.

(** ** The size formatter on integer sizes below 2^53 *)

Lemma roundHalfEven_scale (c a b : Z) :
  0 < c -> 0 < b -> roundHalfEven (c * a) (c * b) = roundHalfEven a b.
Proof.
  intros Hc Hb. unfold roundHalfEven.
  rewrite Z.div_mul_cancel_l by lia. rewrite Z.mul_mod_distr_l by lia.
  replace (c * b <? 2 * (c * (a mod b))) with (b <? 2 * (a mod b)).
  2:{ destruct (b <? 2 * (a mod b)) eqn:E; symmetry.
      - apply Z.ltb_lt in E. apply Z.ltb_lt. nia.
      - apply Z.ltb_ge in E. apply Z.ltb_ge. nia. }
  replace (2 * (c * (a mod b)) =? c * b) with (2 * (a mod b) =? b).
  2:{ destruct (2 * (a mod b) =? b) eqn:E; symmetry.
      - apply Z.eqb_eq in E. apply Z.eqb_eq. nia.
      - apply Z.eqb_neq in E. apply Z.eqb_neq. nia. }
  reflexivity.
Qed.

Lemma scaledDigits_negative_exponent (m : positive) (e : Z) (p : nat) :
  e < 0 ->
  float64.scaledDigits m e p = roundHalfEven (Zpos m * 10 ^ Z.of_nat p) (2 ^ (- e)).
Proof.
  intros He. unfold float64.scaledDigits, roundHalfEven.
  replace (0 <=? e) with false by (symmetry; apply Z.leb_gt; exact He).
  reflexivity.
Qed.

Lemma sizeLoop_exact (j : nat) :
  forall (fuel : nat) (s : float) (i : Z) (m : positive) (e : Z),
    Prim2SF s = S754_finite false m e ->
    Zpos (digits2_pos m) = 53 -> e <= 971 ->
    e - 10 * Z.of_nat j < -42 <= e - 10 * (Z.of_nat j - 1) \/
    (j = 0%nat /\ e < -42) ->
    0 <= i -> i + Z.of_nat j <= 6 -> (j < fuel)%nat ->
    exists s',
      ui.sizeLoop fuel s 1024%float i 7 = Ok (s', i + Z.of_nat j) /\
      Prim2SF s' = S754_finite false m (e - 10 * Z.of_nat j).
Proof.
  induction j as [|j IH]; intros fuel s i m e Hs Hd Hmax He Hi Hij Hf;
    (destruct fuel as [|fuel]; [lia|]); cbn [ui.sizeLoop];
    rewrite FloatAxioms.leb_spec, Hs, Prim2SF_1024, (SFleb_normal m e (-42) Hd).
  - replace (-42 <=? e) with false by (symmetry; apply Z.leb_gt; lia).
    cbn [andb]. exists s. rewrite Z.add_0_r, Z.mul_0_r, Z.sub_0_r.
    split; [reflexivity | exact Hs].
  - replace (-42 <=? e) with true by (symmetry; apply Z.leb_le; lia).
    replace (i <? 7) with true by (symmetry; apply Z.ltb_lt; lia).
    cbn [andb].
    assert (Hdiv : Prim2SF (s / 1024)%float = S754_finite false m (e - 10)).
    { rewrite FloatAxioms.div_spec, Hs, Prim2SF_1024.
      apply SFdiv_1024; [exact Hd | lia]. }
    assert (He' : e - 10 - 10 * Z.of_nat j < -42
                  <= e - 10 - 10 * (Z.of_nat j - 1)
                  \/ (j = 0%nat /\ e - 10 < -42)) by lia.
    destruct (IH fuel (s / 1024)%float (i + 1) m (e - 10) Hdiv Hd
                 ltac:(lia) He' ltac:(lia) ltac:(lia) ltac:(lia))
      as (s' & Hl & Hs').
    exists s'. rewrite Hl. split.
    + f_equal. f_equal. lia.
    + rewrite Hs'. f_equal. lia.
Qed.

(** X21: an integer size below 2^53 in the range of unit [j] prints as the
    size divided by [1024^j], rounded to the nearest (ties to even) with
    no decimals for the first two units and two decimals from Mb on,
    followed by the unit. *)
Theorem formatSize_of_int (z j : Z) :
  0 < z < 2 ^ 53 -> 0 <= j <= 5 -> 1024 ^ j <= z < 1024 ^ (j + 1) ->
  let decimals := if 1 <? j then 2%nat else 0%nat in
  ui.formatSize (float64.ofInt z) 1024%float
  = Ok (float64.fixedDigits
          (roundHalfEven (z * 10 ^ Z.of_nat decimals) (1024 ^ j)) decimals
        ++ " " ++ nth (Z.to_nat j) ui.sizes "").
Proof.
  intros Hz Hj Hunit decimals.
  destruct z as [|p|p]; try lia.
  destruct (Prim2SF_ofInt_exact p ltac:(lia)) as (mz & Hs & Hd & Hval).
  pose proof (digits2_bounds p) as [Hlo Hhi].
  set (D := Zpos (digits2_pos p)) in *.
  assert (HD : 10 * j < D <= 10 * j + 10).
  { change 1024 with (2 ^ 10) in Hunit.
    rewrite <- !Z.pow_mul_r in Hunit by lia. split.
    - destruct (Z_lt_le_dec (10 * j) D) as [H|H]; [exact H|]. exfalso.
      assert (2 ^ D <= 2 ^ (10 * j)) by (apply Z.pow_le_mono_r; lia). lia.
    - subst D. apply digits2_le; [lia|].
      replace (10 * j + 10) with (10 * (j + 1)) by lia. lia. }
  assert (HD53 : D <= 53) by (subst D; apply digits2_le; lia).
  destruct (sizeLoop_exact (Z.to_nat j) 7 (float64.ofInt (Zpos p)) 0 mz (D - 53)
              Hs Hd ltac:(lia) ltac:(left; lia) ltac:(lia) ltac:(lia) ltac:(lia))
    as (s' & Hloop & Hs').
  rewrite Z2Nat.id in Hloop, Hs' by lia. rewrite Z.add_0_l in Hloop.
  unfold ui.formatSize.
  change (Z.to_nat (len ui.sizes)) with 7%nat. change (len ui.sizes) with 7.
  rewrite Hloop. cbn [rbind]. fold decimals.
  rewrite (nth_error_nth' ui.sizes "") by (cbn; lia).
  f_equal. f_equal.
  unfold float64.formatFixed. rewrite Hs'. cbn [append]. f_equal.
  rewrite scaledDigits_negative_exponent by lia.
  rewrite Hval.
  replace (- (D - 53 - 10 * j)) with ((53 - D) + 10 * j) by lia.
  rewrite Z.pow_add_r by lia.
  replace (2 ^ (10 * j)) with (1024 ^ j)
    by (change 1024 with (2 ^ 10); rewrite <- Z.pow_mul_r by lia; reflexivity).
  replace (Zpos p * 2 ^ (53 - D) * 10 ^ Z.of_nat decimals)
    with (2 ^ (53 - D) * (Zpos p * 10 ^ Z.of_nat decimals)) by lia.
  apply roundHalfEven_scale; apply Z.pow_pos_nonneg; lia.
Qed.

Lemma formatSize_of_int_witness :
  ui.formatSize (float64.ofInt 5767168) 1024%float = Ok "5.50 Mb".
Proof.
  apply (formatSize_of_int 5767168 2); lia.
Defined.

(** ** Half the window width *)

Lemma Prim2SF_half :
  Prim2SF 0.5%float = S754_finite false 4503599627370496 (-53).
Proof. vm_compute. reflexivity. Qed.

Lemma SFmul_half (mz : positive) (ez : Z) :
  Zpos (digits2_pos mz) = 53 -> -1000 <= ez <= 971 ->
  SF64mul (S754_finite false 4503599627370496 (-53)) (S754_finite false mz ez)
  = S754_finite false mz (ez - 1).
Proof.
  intros Hd He. unfold SF64mul, SFmul. cbn [xorb].
  change (Pos.mul 4503599627370496 mz) with (Pos.iter xO mz 52).
  unfold binary_round_aux, shr_fexp. cbn [Zdigits2].
  rewrite digits2_iter_xO, Hd.
  unfold fexp, SpecFloat.emin. change prec with 53. change emax with 1024.
  replace (Z.max (53 + 52 + (-53 + ez) - 53) (3 - 1024 - 53) - (-53 + ez))
    with 52 by lia.
  cbn [Pos.iter shr_record_of_loc shr iter_pos shr_1 shr_m orb
       loc_of_shr_record round_nearest_even Zdigits2].
  rewrite Hd.
  replace (Z.max (53 + (-53 + ez + 52) - 53) (3 - 1024 - 53) - (-53 + ez + 52))
    with 0 by lia.
  cbn [shr shr_m].
  replace (-53 + ez + 52 <=? 1024 - 53) with true
    by (symmetry; apply Z.leb_le; lia).
  f_equal. lia.
Qed.

(** X22: for a window width from 0 to below 2^53, the section width is half
    the width, rounded down. *)
Theorem halfWidth_floor (w : Z) :
  0 <= w < 2 ^ 53 -> halfWidth w = w / 2.
Proof.
  intros Hw. destruct w as [|p|p]; try lia.
  - vm_compute. reflexivity.
  - destruct (Prim2SF_ofInt_exact p ltac:(lia)) as (mz & Hs & Hd & Hval).
    pose proof (digits2_bounds p) as [Hlo Hhi].
    assert (HD : 0 < Zpos (digits2_pos p) <= 53)
      by (split; [lia | apply digits2_le; lia]).
    unfold halfWidth, float64.floor.
    rewrite FloatAxioms.mul_spec, Prim2SF_half, Hs, (SFmul_half mz _ Hd) by lia.
    replace (0 <=? Zpos (digits2_pos p) - 53 - 1) with false
      by (symmetry; apply Z.leb_gt; lia).
    rewrite Hval.
    replace (- (Zpos (digits2_pos p) - 53 - 1))
      with (Z.succ (53 - Zpos (digits2_pos p))) by lia.
    rewrite Z.pow_succ_r by lia.
    rewrite Z.div_mul_cancel_r; [reflexivity | lia |].
    apply Z.pow_nonzero; lia.
Qed.

Lemma halfWidth_floor_witness : halfWidth 81 = 81 / 2.
Proof. apply (halfWidth_floor 81). lia. Defined.

(** ** Lines and text *)

Lemma SplitLines_not_nil (s : string) : strings.SplitLines s <> [].
Proof.
  induction s as [|c s IH]; cbn [strings.SplitLines]; [discriminate|].
  destruct (Ascii.eqb c (ascii_of_nat 10)); [discriminate|].
  destruct (strings.SplitLines s); [contradiction | discriminate].
Qed.

Lemma Join_cons (e : string) (l : list string) (sep : string) :
  l <> [] -> strings.Join (e :: l) sep = e ++ sep ++ strings.Join l sep.
Proof. destruct l; [contradiction | reflexivity]. Qed.

(** Splitting at line feeds and joining with line feeds gives the text
    back. *)
Lemma Join_SplitLines (s : string) :
  strings.Join (strings.SplitLines s) nl = s.
Proof.
  induction s as [|c s IH]; [reflexivity|].
  cbn [strings.SplitLines].
  pose proof (SplitLines_not_nil s) as Hne.
  destruct (Ascii.eqb c (ascii_of_nat 10)) eqn:E.
  - apply Ascii.eqb_eq in E. subst c.
    rewrite Join_cons by exact Hne. rewrite IH. reflexivity.
  - destruct (strings.SplitLines s) as [|f fs]; [contradiction|].
    destruct fs as [|g fs].
    + cbn [strings.Join] in *. rewrite IH. reflexivity.
    + rewrite Join_cons by discriminate.
      rewrite Join_cons in IH by discriminate.
      cbn [append]. rewrite IH. reflexivity.
Qed.

(** X23: a text preview with no more lines than the window height is
    handed on unchanged: its lines joined by line feeds are the content. *)
Theorem previewLines_whole_text (content : string) (winHeight : Z) :
  utf8.Valid content = true ->
  len (strings.SplitLines content) <= winHeight ->
  exists contentLines,
    previewLines content winHeight = Ok contentLines /\
    strings.Join contentLines nl = content.
Proof.
  intros Hvalid Hfit. rewrite previewLines_eq, Hvalid.
  eexists. split; [reflexivity|].
  rewrite firstn_all2 by (unfold len in Hfit; lia).
  apply Join_SplitLines.
Qed.

Lemma previewLines_whole_text_witness :
  exists contentLines,
    previewLines ("package main" ++ nl ++ "func main() {}" ++ nl) 10
      = Ok contentLines /\
    strings.Join contentLines nl
      = "package main" ++ nl ++ "func main() {}" ++ nl.
Proof.
  apply (previewLines_whole_text ("package main" ++ nl ++ "func main() {}" ++ nl) 10).
  - vm_compute. reflexivity.
  - vm_compute. discriminate.
Defined.

(** ** The rows of the heading *)

Lemma SplitLines_no_line_feed (s : string) :
  hasLineFeed s = false -> strings.SplitLines s = [s].
Proof.
  unfold hasLineFeed. induction s as [|c s IH]; [reflexivity|].
  cbn [list_ascii_of_string existsb strings.SplitLines]. intros H.
  apply orb_false_iff in H. destruct H as [Hc Hs].
  rewrite Hc, (IH Hs). reflexivity.
Qed.

Lemma SplitLines_row (a rest : string) :
  hasLineFeed a = false ->
  strings.SplitLines (a ++ nl ++ rest) = a :: strings.SplitLines rest.
Proof.
  unfold hasLineFeed. induction a as [|c a IH]; intros H.
  - reflexivity.
  - cbn [list_ascii_of_string existsb] in H.
    apply orb_false_iff in H. destruct H as [Hc Ha].
    cbn [append strings.SplitLines]. rewrite Hc, (IH Ha). reflexivity.
Qed.

(** Rows without line feeds, joined by line feeds and split again, are
    the rows. *)
Lemma SplitLines_Join (rows : list string) :
  rows <> [] ->
  forallb (fun row => negb (hasLineFeed row)) rows = true ->
  strings.SplitLines (strings.Join rows nl) = rows.
Proof.
  induction rows as [|e rest IH]; intros Hne Hrows; [contradiction|].
  cbn [forallb] in Hrows. apply andb_true_iff in Hrows.
  destruct Hrows as [He Hrest]. apply negb_true_iff in He.
  destruct rest as [|f rest].
  - apply SplitLines_no_line_feed. exact He.
  - rewrite Join_cons by discriminate.
    rewrite (SplitLines_row e _ He), IH by (discriminate || exact Hrest).
    reflexivity.
Qed.

(** C10 as stated fails: for a selected file whose path holds a line feed
    the heading block has four rows, and 3 is reported. *)
Lemma renderHeading_four_rows_reported_as_three :
  ui.renderHeading sampleExt lineFeedState
  = Ok (strings.Join [sgr "32" ("> /repo/a" ++ nl ++ "b");
                      sgr "35" "01 Jan 70 00:00 UTC : 10 b";
                      ": "] nl, 3) /\
  List.length
    (strings.SplitLines
       (strings.Join [sgr "32" ("> /repo/a" ++ nl ++ "b");
                      sgr "35" "01 Jan 70 00:00 UTC : 10 b";
                      ": "] nl)) = 4%nat.
Proof. split; vm_compute; reflexivity. Qed.

(** C10, amended: for every state whose current directory is set (the
    selected size is an int64), [renderHeading] returns the path row, the
    time and size row and the operation bar joined by line feeds, and
    reports 3; without a selection the path is the current directory's
    path followed by "/...", the change time "--" and the size "0 B".
    When none of the three strings holds a line feed the block consists
    of exactly these three rows.  [Render] hands the window height less 3
    to the tree/preview layout in every case. *)
Theorem renderHeading_three_rows (ext : Ext) (s : state.State) (cd : tree.Node) :
  tree.CurrentDir (state.Tree s) = Some cd ->
  (forall sel, tree.GetSelectedChild (state.Tree s) = Some sel ->
               GoInt.in_int (tree.Size (tree.Info sel))) ->
  exists path changeTime size,
    match tree.GetSelectedChild (state.Tree s) with
    | None => path = tree.Path cd ++ "/..." /\ changeTime = "--" /\ size = "0 B"
    | Some sel =>
      path = tree.Path sel /\
      changeTime = FormatRFC822 ext (tree.ModTime (tree.Info sel)) /\
      ui.formatSize (float64.ofInt (tree.Size (tree.Info sel))) 1024%float
        = Ok size
    end /\
    let rows := [GreenString ext ("> " ++ path);
                 MagentaString ext (changeTime ++ " : " ++ size);
                 operationBarOf ext s] in
    ui.renderHeading ext s = Ok (strings.Join rows nl, 3) /\
    (forallb (fun row => negb (hasLineFeed row)) rows = true ->
     strings.SplitLines (strings.Join rows nl) = rows) /\
    forall winHeight winWidth r,
      ui.Render ext s winHeight winWidth r =
      bind (ui.renderTreeWithContent ext (state.Tree s) (winHeight -i 3) winWidth)
           (fun renderedTree => ret (strings.Join rows nl ++ nl ++ renderedTree)) r.
Proof.
  intros Hcd Hsize.
  destruct (tree.GetSelectedChild (state.Tree s)) as [sel|] eqn:Hsel.
  - destruct (formatSize_ofInt_ok _ (Hsize sel eq_refl)) as [size Hfmt].
    exists (tree.Path sel), (FormatRFC822 ext (tree.ModTime (tree.Info sel))), size.
    split; [repeat split; exact Hfmt|]. cbv zeta.
    pose proof (renderHeading_selection ext s cd sel size Hcd Hsel Hfmt) as Hh.
    split; [exact Hh|]. split.
    + apply SplitLines_Join. discriminate.
    + intros winHeight winWidth r.
      apply (Render_unfold ext s _ 3 winHeight winWidth r Hh).
  - exists (tree.Path cd ++ "/..."), "--", "0 B".
    split; [repeat split|]. cbv zeta.
    pose proof (renderHeading_no_selection ext s cd Hcd Hsel) as Hh.
    split; [exact Hh|]. split.
    + apply SplitLines_Join. discriminate.
    + intros winHeight winWidth r.
      apply (Render_unfold ext s _ 3 winHeight winWidth r Hh).
Qed.

Lemma renderHeading_three_rows_witness :
  exists path changeTime size,
    (path = "/repo/f" /\ changeTime = "01 Jan 70 00:00 UTC" /\
     ui.formatSize (float64.ofInt 2048) 1024%float = Ok size) /\
    let rows := [sgr "32" ("> " ++ path);
                 sgr "35" (changeTime ++ " : " ++ size);
                 ": "] in
    ui.renderHeading sampleExt sixFilesState = Ok (strings.Join rows nl, 3) /\
    (forallb (fun row => negb (hasLineFeed row)) rows = true ->
     strings.SplitLines (strings.Join rows nl) = rows) /\
    forall winHeight winWidth r,
      ui.Render sampleExt sixFilesState winHeight winWidth r =
      bind (ui.renderTreeWithContent sampleExt sixFilesTree (winHeight -i 3) winWidth)
           (fun renderedTree => ret (strings.Join rows nl ++ nl ++ renderedTree)) r.
Proof.
  apply (renderHeading_three_rows sampleExt sixFilesState sixFiles).
  - reflexivity.
  - intros sel Hsel. injection Hsel as <-.
    unfold GoInt.in_int, GoInt.min_int, GoInt.max_int. cbn. lia.
Defined.

(** ** Package main: Render *)

(** X24: the root-package Render panics exactly when the crop of the
    flattened tree panics, for every window size. *)
Theorem main_Render_fails_only_in_crop (ext : Ext) (t : tree.Tree) :
  exists lines cur,
    main.renderTree ext t = Ok (lines, cur) /\
    forall winHeight winWidth r,
      (fst (main.Render ext t winHeight winWidth r) = Panic
       <-> fst (cropTree lines cur winHeight r) = Panic) /\
      fst (main.Render ext t winHeight winWidth r) <> OutOfFuel /\
      snd (main.Render ext t winHeight winWidth r)
        = snd (cropTree lines cur winHeight r).
Proof.
  eexists _, _. split; [apply main_renderTree_spec|].
  intros winHeight winWidth r.
  pose proof (cropTree_returns_or_panics
                (flat_map (emit ext t (main.nodeLine ext)) (preorderPtr 0 (tree.Root t)))
                (snd (fold_left (selStep t) (popsPtr 0 (tree.Root t)) (-1, 0)))
                winHeight r) as Hfuel.
  unfold main.Render. unfold bind, lift, ret. cbv beta.
  rewrite main_renderTree_spec. cbv beta iota.
  revert Hfuel.
  destruct (cropTree _ _ winHeight r) as [[out| |] r'];
    cbn [fst snd]; intros Hfuel.
  - destruct (ReadSelectedChildContent ext t previewBytesLimit) as [content|].
    + rewrite previewLines_eq. cbn [fst snd].
      repeat split; try discriminate.
    + cbn [fst snd]. repeat split; try discriminate.
  - repeat split; try discriminate.
  - congruence.
Qed.

(** ** Names of ASCII bytes *)

Lemma decode_ascii (bs : list N) :
  forallb (fun b => (b <? 0x80)%N) bs = true ->
  utf8.decode bs = map (fun b => (b, 1%nat)) bs.
Proof.
  induction bs as [|b bs IH]; [reflexivity|].
  cbn [forallb]. intros H. apply andb_true_iff in H. destruct H as [Hb Hbs].
  cbn [utf8.decode map]. rewrite Hb, (IH Hbs). reflexivity.
Qed.

Lemma runes_ascii (s : string) :
  isASCII s = true -> utf8.runes s = bytesOf s.
Proof.
  intros H. unfold utf8.runes. rewrite (decode_ascii _ H), map_map.
  cbn [fst]. apply map_id.
Qed.

Lemma length_bytesOf (s : string) :
  List.length (bytesOf s) = String.length s.
Proof.
  unfold bytesOf. rewrite length_map.
  induction s as [|c s IH]; [reflexivity|].
  cbn [list_ascii_of_string List.length String.length]. rewrite IH. reflexivity.
Qed.

Lemma RuneCountInString_ascii (s : string) :
  isASCII s = true -> utf8.RuneCountInString s = Z.of_nat (String.length s).
Proof.
  intros H. unfold utf8.RuneCountInString, len.
  rewrite (runes_ascii _ H), length_bytesOf. reflexivity.
Qed.

Lemma flat_map_encodeRune_ascii (rs : list N) :
  forallb (fun b => (b <? 0x80)%N) rs = true ->
  flat_map utf8.encodeRune rs = rs.
Proof.
  induction rs as [|b rs IH]; [reflexivity|].
  cbn [forallb]. intros H. apply andb_true_iff in H. destruct H as [Hb Hbs].
  cbn [flat_map]. unfold utf8.encodeRune at 1. rewrite Hb, (IH Hbs). reflexivity.
Qed.

Lemma forallb_firstn {A} (f : A -> bool) (k : nat) (l : list A) :
  forallb f l = true -> forallb f (firstn k l) = true.
Proof.
  revert l. induction k as [|k IH]; intros [|a l]; cbn; try reflexivity.
  intros H. apply andb_true_iff in H. destruct H as [Ha Hl].
  rewrite Ha, (IH l Hl). reflexivity.
Qed.

Lemma stringOfBytes_firstn (k : nat) (s : string) :
  stringOfBytes (firstn k (bytesOf s)) = substring 0 k s.
Proof.
  unfold stringOfBytes, bytesOf.
  revert k. induction s as [|c s IH]; intros [|k]; try reflexivity.
  cbn [list_ascii_of_string map firstn string_of_list_ascii substring].
  rewrite ascii_N_embedding, IH. reflexivity.
Qed.

Lemma length_substring_prefix (k : nat) (s : string) :
  (k <= String.length s)%nat -> String.length (substring 0 k s) = k.
Proof.
  revert k. induction s as [|c s IH]; intros [|k] H; cbn in *; try lia.
  rewrite IH by lia. reflexivity.
Qed.

Lemma length_string_append (s1 s2 : string) :
  String.length (s1 ++ s2) = (String.length s1 + String.length s2)%nat.
Proof.
  induction s1 as [|c s1 IH]; [reflexivity|].
  cbn [append String.length]. rewrite IH. reflexivity.
Qed.

Lemma length_Repeat_indent (d : nat) :
  String.length (strings.Repeat "  " d) = (2 * d)%nat.
Proof.
  induction d as [|d IH]; [reflexivity|].
  cbn [strings.Repeat]. rewrite length_string_append, IH. cbn [String.length]. lia.
Qed.

(** X25: an ASCII name of a plain file that does not fit the width budget
    is cut to its first [widthLim - indent - 6] bytes followed by three
    dots, and the line is then [widthLim - 3] bytes long. *)
Theorem nodeLine_ascii_truncated (ext : Ext) (t : tree.Tree) (widthLim : Z)
        (node : tree.Node) (d : nat) :
  widthLim <= GoInt.max_int ->
  6 + 2 * Z.of_nat d <= widthLim ->
  tree.IsDir (tree.Info node) = false ->
  tree.ptrEq (tree.Marked t) node = false ->
  isASCII (tree.Name (tree.Info node)) = true ->
  widthLim - 6
    < Z.of_nat (String.length (tree.Name (tree.Info node))) + 2 * Z.of_nat d ->
  exists line,
    ui.nodeLine ext t widthLim node d = Ok line /\
    line = strings.Repeat "  " d ++
           substring 0 (Z.to_nat (widthLim - 2 * Z.of_nat d - 6))
                     (tree.Name (tree.Info node)) ++ "..." /\
    Z.of_nat (String.length line) = widthLim - 3.
Proof.
  intros Hmax Hmin Hdir Hmark Hascii Hlong.
  eexists. split; [|split; [reflexivity|]].
  - rewrite (nodeLine_file_truncated ext t widthLim node d Hmax
               ltac:(unfold GoInt.min_int; lia) Hdir Hmark
               ltac:(rewrite (RuneCountInString_ascii _ Hascii); exact Hlong)).
    rewrite (runes_ascii _ Hascii).
    unfold utf8.stringOfRunes.
    rewrite flat_map_encodeRune_ascii by (apply forallb_firstn; exact Hascii).
    rewrite stringOfBytes_firstn, Z.max_r by lia. reflexivity.
  - rewrite !length_string_append, length_Repeat_indent, length_substring_prefix by lia.
    cbn [String.length]. lia.
Qed.

Lemma nodeLine_ascii_truncated_witness :
  exists line,
    ui.nodeLine sampleExt longFileTree 10 longFile 0 = Ok line /\
    line = "abcd..." /\
    Z.of_nat (String.length line) = 10 - 3.
Proof.
  apply (nodeLine_ascii_truncated sampleExt longFileTree 10 longFile 0);
    try reflexivity; vm_compute; discriminate.
Defined.
